(** * MultiClipboard: a verified model of [main.py]

    The program keeps named text snippets in a dict that is persisted as one
    JSON object in [clipboard.json].  This development embeds

    - Python [str] values as lists of code points ([Text]),
    - the insertion-ordered [dict] ([Dict]),
    - the text layer of [open] in text mode: UTF-8 and universal newlines
      ([Codec]),
    - [json.dump] and [json.load] as the program uses them ([Json]),
    - the console, the clipboard and the file system as explicit state,
      with a small monad for the functions that act on it ([Sys]),
    - the six functions of [main.py] under their own names ([Main]),
    - the notions the statements are written in ([Spec]),
    - [main] and the runs of the whole program ([Program]),

    and then proves the properties of the persistence routines and of the
    four command handlers: first the facts about strings, dicts, the JSON
    text and text files, then the run of every path through every handler,
    and last the properties themselves. *)

From Stdlib Require Import NArith ZArith Ascii String Lia.
From stdpp Require Import base option list gmap.

Open Scope N_scope.

(* ===================================================================== *)
(** * Python strings *)
(* ===================================================================== *)

Module Text.

(** A Python [str] is a sequence of code points.  Nothing in the type keeps
    surrogate code points (U+D800..U+DFFF) out: Python allows them in a
    [str], and [json.load] produces them from a lone [\udXXX] escape. *)
Definition text := list N.

(** A literal of the source, written as a Rocq string of ASCII characters. *)
Definition lit (s : string) : text :=
  map N_of_ascii (list_ascii_of_string s).

Definition is_high_surrogate (c : N) : bool := (0xD800 <=? c) && (c <=? 0xDBFF).
Definition is_low_surrogate (c : N) : bool := (0xDC00 <=? c) && (c <=? 0xDFFF).

(** The lower-case form of one code point ([str.lower] works code point by
    code point).  The mapping is exact on ASCII and on the two non-ASCII
    code points whose lower-case form contains an ASCII character (U+0130
    and U+212A); every other non-ASCII code point is left as it is, which
    stands for a lower-case form made of non-ASCII code points only.  The
    program compares the result with the ASCII literal ["y"] and does
    nothing else with it. *)
Definition lower_cp (c : N) : text :=
  if (65 <=? c) && (c <=? 90) then [c + 32]
  else if c =? 0x130 then [0x69; 0x307]
  else if c =? 0x212A then [0x6B]
  else [c].

(** [s.lower()] *)
Definition lower (s : text) : text := flat_map lower_cp s.

(** The character that ends a line of console output. *)
Definition NL : N := 10.

(** The lines of a text stream: the pieces that end in a newline, without
    it, and after them the unterminated rest, when there is one. *)
Fixpoint lines_from (cur : text) (s : text) : list text :=
  match s with
  | [] => match cur with [] => [] | _ => [rev cur] end
  | c :: r => if c =? NL then rev cur :: lines_from [] r
              else lines_from (c :: cur) r
  end.

Definition lines (s : text) : list text := lines_from [] s.

End Text.

Import Text.

(* ===================================================================== *)
(** * Python dicts with string keys *)
(* ===================================================================== *)

Module Dict.

Section dict.
Context {V : Type}.

(** A dict keeps its items in insertion order and has no key twice. *)
Definition dict := list (text * V).

(** [d.get(k)]; [k in d] is [is_Some] of it. *)
Fixpoint get (k : text) (d : dict) : option V :=
  match d with
  | [] => None
  | (k', v) :: r => if decide (k = k') then Some v else get k r
  end.

(** [k in d] *)
Definition mem (k : text) (d : dict) : bool := bool_decide (is_Some (get k d)).

(** [d[k] = v]: an existing key keeps its place, a new key goes last. *)
Fixpoint set (k : text) (v : V) (d : dict) : dict :=
  match d with
  | [] => [(k, v)]
  | (k', v') :: r =>
      if decide (k = k') then (k', v) :: r else (k', v') :: set k v r
  end.

(** [del d[k]] for a key that is present (the program tests [k in d]
    first); on an absent key the list is returned as it is. *)
Fixpoint del (k : text) (d : dict) : dict :=
  match d with
  | [] => []
  | (k', v') :: r => if decide (k = k') then r else (k', v') :: del k r
  end.

Definition keys (d : dict) : list text := map fst d.

(** The representation invariant of a dict. *)
Definition wf (d : dict) : Prop := NoDup (keys d).

End dict.

Arguments dict : clear implicits.

End Dict.

(** The store of the program: keys and values are strings. *)
Definition store := Dict.dict text.

(* ===================================================================== *)
(** * Text files: UTF-8 and universal newlines *)
(* ===================================================================== *)

Module Codec.

Definition bytes := list Byte.byte.

Definition byte_of (n : N) : Byte.byte :=
  match Byte.of_N n with Some b => b | None => Byte.x00 end.

Definition is_cont (n : N) : bool := (0x80 <=? n) && (n <=? 0xBF).

(** Strict UTF-8, as Python decodes a file opened in text mode when the
    locale encoding is UTF-8: overlong forms, surrogates, code points above
    U+10FFFF and truncated sequences are errors.  [None] stands for
    [UnicodeDecodeError]. *)
Fixpoint utf8_decode (bs : bytes) : option text :=
  match bs with
  | [] => Some []
  | b0 :: r0 =>
      let n0 := Byte.to_N b0 in
      if n0 <? 0x80 then cons n0 <$> utf8_decode r0
      else if (0xC0 <=? n0) && (n0 <=? 0xDF) then
        match r0 with
        | b1 :: r1 =>
            let n1 := Byte.to_N b1 in
            let c := N.lor (N.shiftl (N.land n0 0x1F) 6) (N.land n1 0x3F) in
            if is_cont n1 && (0x80 <=? c) then cons c <$> utf8_decode r1
            else None
        | _ => None
        end
      else if (0xE0 <=? n0) && (n0 <=? 0xEF) then
        match r0 with
        | b1 :: b2 :: r2 =>
            let n1 := Byte.to_N b1 in
            let n2 := Byte.to_N b2 in
            let c := N.lor (N.shiftl (N.land n0 0x0F) 12)
                       (N.lor (N.shiftl (N.land n1 0x3F) 6) (N.land n2 0x3F)) in
            if is_cont n1 && is_cont n2 && (0x800 <=? c)
               && negb ((0xD800 <=? c) && (c <=? 0xDFFF))
            then cons c <$> utf8_decode r2
            else None
        | _ => None
        end
      else if (0xF0 <=? n0) && (n0 <=? 0xF7) then
        match r0 with
        | b1 :: b2 :: b3 :: r3 =>
            let n1 := Byte.to_N b1 in
            let n2 := Byte.to_N b2 in
            let n3 := Byte.to_N b3 in
            let c := N.lor (N.shiftl (N.land n0 0x07) 18)
                       (N.lor (N.shiftl (N.land n1 0x3F) 12)
                          (N.lor (N.shiftl (N.land n2 0x3F) 6) (N.land n3 0x3F))) in
            if is_cont n1 && is_cont n2 && is_cont n3
               && (0x10000 <=? c) && (c <=? 0x10FFFF)
            then cons c <$> utf8_decode r3
            else None
        | _ => None
        end
      else None
  end.

(** The UTF-8 form of one code point; [None] ([UnicodeEncodeError]) for a
    surrogate and for a number that is no code point. *)
Definition utf8_encode_cp (c : N) : option bytes :=
  if c <? 0x80 then Some [byte_of c]
  else if c <? 0x800 then
    Some [byte_of (N.lor 0xC0 (N.shiftr c 6));
          byte_of (N.lor 0x80 (N.land c 0x3F))]
  else if (0xD800 <=? c) && (c <=? 0xDFFF) then None
  else if c <? 0x10000 then
    Some [byte_of (N.lor 0xE0 (N.shiftr c 12));
          byte_of (N.lor 0x80 (N.land (N.shiftr c 6) 0x3F));
          byte_of (N.lor 0x80 (N.land c 0x3F))]
  else if c <=? 0x10FFFF then
    Some [byte_of (N.lor 0xF0 (N.shiftr c 18));
          byte_of (N.lor 0x80 (N.land (N.shiftr c 12) 0x3F));
          byte_of (N.lor 0x80 (N.land (N.shiftr c 6) 0x3F));
          byte_of (N.lor 0x80 (N.land c 0x3F))]
  else None.

Fixpoint utf8_encode (t : text) : option bytes :=
  match t with
  | [] => Some []
  | c :: r =>
      match utf8_encode_cp c, utf8_encode r with
      | Some b, Some bs => Some (b ++ bs)
      | _, _ => None
      end
  end.

(** Reading in text mode turns ["\r\n"] and a lone ["\r"] into ["\n"]. *)
Fixpoint universal_newlines (t : text) : text :=
  match t with
  | [] => []
  | c :: r =>
      if c =? 13 then
        match r with
        | c' :: r' =>
            if c' =? 10 then 10 :: universal_newlines r'
            else 10 :: universal_newlines r
        | [] => [10]
        end
      else c :: universal_newlines r
  end.

(** [f.read()] on a file opened with [open(path, "r")]. *)
Definition read_text (bs : bytes) : option text :=
  universal_newlines <$> utf8_decode bs.

(** What [f.write(t)] puts in a file opened with [open(path, "w")].  The
    line separator of the platform is taken to be ["\n"]; the texts the
    program writes hold no newline at all. *)
Definition write_text (t : text) : option bytes := utf8_encode t.

End Codec.

(* ===================================================================== *)
(** * The [json] module, as far as the program uses it *)
(* ===================================================================== *)

(** The encoder is [json.dump] with its default options ([ensure_ascii],
    the separators [", "] and [": "]) on a dict of strings.  The decoder is
    [json.load] with its default options on any text, after the scanner and
    the decoder of CPython ([scanstring], the number pattern, the words,
    [JSONObject], [JSONArray]).  It is written in two passes, a scanner
    that cuts the text into tokens and a machine that reads the tokens with
    the open containers on a stack, so that both are structural recursions
    and the decoder is total.  White space may stand between any two tokens
    and nowhere else, as in the decoder of CPython.  The limits of the
    interpreter are left out: [json.load] raises [RecursionError] on a
    text that nests containers about as deep as the recursion limit (1000
    by default), and [ValueError] on an integer of more than 4300 digits,
    and [load_data] takes neither.  The decoder below is [json.load] on
    the texts that stay within these limits ([Spec.within_limits]); the
    statements about the text of an arbitrary file assume them.  The text
    [json.dump] writes for a dict of strings nests one container and holds
    no number. *)

Module Json.

(** Code points of the ASCII characters the format names. *)
Definition ch (a : ascii) : N := N_of_ascii a.
Definition QUOTE : N := 34.
Definition BACKSLASH : N := 92.

(** What [json.load] can return.  A float stays the text of its literal:
    its numeric value plays no part here. *)
#[warnings="-register-all"]
Inductive json :=
| JNull
| JBool (b : bool)
| JInt (z : Z)
| JFloat (lexeme : text)
| JStr (s : text)
| JArr (elems : list json)
| JObj (members : list (text * json)).

(** The store seen as the JSON value that stands for it. *)
Definition of_store (d : store) : json :=
  JObj (map (fun kv => (kv.1, JStr kv.2)) d).

(** ** Encoding: [json.dump] with its default options *)

Definition hexdigit (n : N) : N := if n <? 10 then 48 + n else 87 + n.

(** [format(c, "04x")] for a 16-bit [c] *)
Definition hex4 (c : N) : text :=
  [hexdigit (N.land (N.shiftr c 12) 15); hexdigit (N.land (N.shiftr c 8) 15);
   hexdigit (N.land (N.shiftr c 4) 15); hexdigit (N.land c 15)].

Definition uescape (c : N) : text := BACKSLASH :: ch "u" :: hex4 c.

(** One code point under [ensure_ascii]: the short escapes, printable
    ASCII as it is, [\uXXXX] for the rest of the basic plane and a
    surrogate pair of two such escapes above it. *)
Definition escape_cp (c : N) : text :=
  if c =? QUOTE then [BACKSLASH; QUOTE]
  else if c =? BACKSLASH then [BACKSLASH; BACKSLASH]
  else if c =? 10 then [BACKSLASH; ch "n"]
  else if c =? 13 then [BACKSLASH; ch "r"]
  else if c =? 9 then [BACKSLASH; ch "t"]
  else if c =? 12 then [BACKSLASH; ch "f"]
  else if c =? 8 then [BACKSLASH; ch "b"]
  else if (0x20 <=? c) && (c <=? 0x7E) then [c]
  else if c <? 0x10000 then uescape c
  else
    let v := c - 0x10000 in
    uescape (N.lor 0xD800 (N.land (N.shiftr v 10) 0x3FF))
    ++ uescape (N.lor 0xDC00 (N.land v 0x3FF)).

(** [encode_basestring_ascii] *)
Definition encode_string (s : text) : text :=
  QUOTE :: flat_map escape_cp s ++ [QUOTE].

Definition encode_item (kv : text * text) : text :=
  encode_string kv.1 ++ lit ": " ++ encode_string kv.2.

Fixpoint encode_items (d : store) : text :=
  match d with
  | [] => []
  | [kv] => encode_item kv
  | kv :: r => encode_item kv ++ lit ", " ++ encode_items r
  end.

(** The text [json.dump(data, f)] writes for a dict of strings. *)
Definition dumps (d : store) : text :=
  ch "{" :: encode_items d ++ [ch "}"].

(** ** Decoding: [json.load] with its default options *)

Definition hexval (c : N) : option N :=
  if (48 <=? c) && (c <=? 57) then Some (c - 48)
  else if (97 <=? c) && (c <=? 102) then Some (c - 87)
  else if (65 <=? c) && (c <=? 70) then Some (c - 55)
  else None.

Definition hex4_value (h1 h2 h3 h4 : N) : option N :=
  match hexval h1, hexval h2, hexval h3, hexval h4 with
  | Some a, Some b, Some c, Some d =>
      Some (N.lor (N.shiftl a 12) (N.lor (N.shiftl b 8) (N.lor (N.shiftl c 4) d)))
  | _, _, _, _ => None
  end.

(** The character a one-letter escape stands for. *)
Definition unescape (e : N) : option N :=
  if e =? QUOTE then Some QUOTE
  else if e =? BACKSLASH then Some BACKSLASH
  else if e =? ch "/" then Some (ch "/")
  else if e =? ch "b" then Some 8
  else if e =? ch "f" then Some 12
  else if e =? ch "n" then Some 10
  else if e =? ch "r" then Some 13
  else if e =? ch "t" then Some 9
  else None.

Definition join_surrogates (hi lo : N) : N :=
  0x10000 + N.lor (N.shiftl (hi - 0xD800) 10) (lo - 0xDC00).

(** One more decoded character [c], read from [k] characters of input. *)
Definition bump (c : N) (k : nat) (res : option (text * nat)) : option (text * nat) :=
  match res with
  | Some (s, n) => Some (c :: s, (k + n)%nat)
  | None => None
  end.

(** [scanstring]: the text after an opening quote; the result is the
    decoded string and the number of characters read, the closing quote
    included.  A [\uXXXX] escape of a high surrogate that is followed by a
    [\uXXXX] escape of a low surrogate is read as one code point. *)
Fixpoint scanstring (t : text) : option (text * nat) :=
  match t with
  | [] => None
  | c :: r =>
      if c =? QUOTE then Some ([], 1%nat)
      else if c =? BACKSLASH then
        match r with
        | [] => None
        | e :: r1 =>
            if e =? ch "u" then
              match r1 with
              | h1 :: h2 :: h3 :: h4 :: r2 =>
                  match hex4_value h1 h2 h3 h4 with
                  | None => None
                  | Some u =>
                      if is_high_surrogate u then
                        match r2 with
                        | b :: x :: g1 :: g2 :: g3 :: g4 :: r3 =>
                            if (b =? BACKSLASH) && (x =? ch "u") then
                              match hex4_value g1 g2 g3 g4 with
                              | None => None
                              | Some u2 =>
                                  if is_low_surrogate u2
                                  then bump (join_surrogates u u2) 12 (scanstring r3)
                                  else bump u 6 (scanstring r2)
                              end
                            else bump u 6 (scanstring r2)
                        | _ => bump u 6 (scanstring r2)
                        end
                      else bump u 6 (scanstring r2)
                  end
              | _ => None
              end
            else
              match unescape e with
              | Some c' => bump c' 2 (scanstring r1)
              | None => None
              end
        end
      else if c <? 0x20 then None
      else bump c 1 (scanstring r)
  end.

Definition is_digit (c : N) : bool := (48 <=? c) && (c <=? 57).

Fixpoint span_digits (t : text) : text * text :=
  match t with
  | c :: r => if is_digit c then let '(ds, r') := span_digits r in (c :: ds, r')
              else ([], t)
  | [] => ([], [])
  end.

Definition int_of_digits (ds : text) : Z :=
  fold_left (fun acc c => (10 * acc + Z.of_N (c - 48))%Z) ds 0%Z.

(** The integer part of a number: ["0"], or a digit from 1 to 9 and more
    digits. *)
Definition scan_int (t : text) : option (text * text) :=
  match t with
  | c :: r =>
      if c =? ch "0" then Some ([c], r)
      else if is_digit c then let '(ds, r') := span_digits r in Some (c :: ds, r')
      else None
  | [] => None
  end.

(** A fraction: a dot with at least one digit after it. *)
Definition scan_frac (t : text) : text * text :=
  match t with
  | c :: r =>
      if c =? ch "." then
        match span_digits r with
        | ([], _) => ([], t)
        | (ds, r') => (c :: ds, r')
        end
      else ([], t)
  | [] => ([], t)
  end.

(** An exponent: [e] or [E], a sign or none, at least one digit. *)
Definition scan_exp (t : text) : text * text :=
  match t with
  | c :: r =>
      if (c =? ch "e") || (c =? ch "E") then
        let '(sign, r1) :=
          match r with
          | s :: r0 => if (s =? ch "+") || (s =? ch "-") then ([s], r0) else ([], r)
          | [] => ([], r)
          end in
        match span_digits r1 with
        | ([], _) => ([], t)
        | (ds, r') => (c :: sign ++ ds, r')
        end
      else ([], t)
  | [] => ([], t)
  end.

(** [match_number]: the value and the length of the longest number the
    text starts with. *)
Definition match_number (t : text) : option (json * nat) :=
  let '(neg, t0) :=
    match t with
    | c :: r => if c =? ch "-" then (true, r) else (false, t)
    | [] => (false, t)
    end in
  match scan_int t0 with
  | None => None
  | Some (ip, t1) =>
      let '(fp, t2) := scan_frac t1 in
      let '(ep, _) := scan_exp t2 in
      let sign := if neg : bool then [ch "-"] else [] in
      let lexeme := sign ++ ip ++ fp ++ ep in
      match fp, ep with
      | [], [] =>
          let z := int_of_digits ip in
          Some (JInt (if neg then (- z)%Z else z), length lexeme)
      | _, _ => Some (JFloat lexeme, length lexeme)
      end
  end.

Fixpoint starts_with (p t : text) : bool :=
  match p, t with
  | [], _ => true
  | a :: p', b :: t' => (a =? b) && starts_with p' t'
  | _ :: _, [] => false
  end.

(** A value that is neither a string nor a container: the words [null],
    [true], [false], [NaN], [Infinity], [-Infinity], or a number. *)
Definition scan_atom (t : text) : option (json * nat) :=
  if starts_with (lit "null") t then Some (JNull, 4%nat)
  else if starts_with (lit "true") t then Some (JBool true, 4%nat)
  else if starts_with (lit "false") t then Some (JBool false, 5%nat)
  else if starts_with (lit "NaN") t then Some (JFloat (lit "NaN"), 3%nat)
  else if starts_with (lit "Infinity") t then Some (JFloat (lit "Infinity"), 8%nat)
  else if starts_with (lit "-Infinity") t then Some (JFloat (lit "-Infinity"), 9%nat)
  else match_number t.

Inductive token :=
| TLBrace | TRBrace | TLBracket | TRBracket | TColon | TComma
| TString (s : text)
| TAtom (v : json).

Definition is_ws (c : N) : bool :=
  (c =? 32) || (c =? 9) || (c =? 10) || (c =? 13).

(** The scanner.  The decoder walks the text by an index that each token
    moves on by its length; here [skip] counts the characters of the last
    token that are still to be passed over.  [None] is a
    [JSONDecodeError]. *)
Fixpoint lex (skip : nat) (t : text) : option (list token) :=
  match t with
  | [] => Some []
  | c :: r =>
      match skip with
      | S n => lex n r
      | O =>
          if is_ws c then lex 0 r
          else if c =? ch "{" then cons TLBrace <$> lex 0 r
          else if c =? ch "}" then cons TRBrace <$> lex 0 r
          else if c =? ch "[" then cons TLBracket <$> lex 0 r
          else if c =? ch "]" then cons TRBracket <$> lex 0 r
          else if c =? ch ":" then cons TColon <$> lex 0 r
          else if c =? ch "," then cons TComma <$> lex 0 r
          else if c =? QUOTE then
            match scanstring r with
            | Some (s, n) => cons (TString s) <$> lex n r
            | None => None
            end
          else
            match scan_atom t with
            | Some (v, n) => cons (TAtom v) <$> lex (pred n) r
            | None => None
            end
      end
  end.

(** The containers that are open around the value being read. *)
Inductive frame :=
| InArr (elems : list json)
| InObj (members : Dict.dict json) (key : text).

(** Where the decoder stands between two tokens. *)
Inductive pstate :=
| SValue (stk : list frame)
| SArrFirst (stk : list frame)
| SArrSep (elems : list json) (stk : list frame)
| SObjFirst (stk : list frame)
| SKey (members : Dict.dict json) (stk : list frame)
| SColon (members : Dict.dict json) (key : text) (stk : list frame)
| SObjSep (members : Dict.dict json) (stk : list frame)
| SDone (v : json).

(** A value is complete: it is the result, or it goes into the innermost
    open container.  A key that comes twice keeps its first place and takes
    the last value, as in the [dict] the decoder builds. *)
Definition complete (v : json) (stk : list frame) : pstate :=
  match stk with
  | [] => SDone v
  | InArr elems :: stk' => SArrSep (elems ++ [v]) stk'
  | InObj members key :: stk' => SObjSep (Dict.set key v members) stk'
  end.

Definition start_value (tok : token) (stk : list frame) : option pstate :=
  match tok with
  | TAtom v => Some (complete v stk)
  | TString s => Some (complete (JStr s) stk)
  | TLBracket => Some (SArrFirst stk)
  | TLBrace => Some (SObjFirst stk)
  | _ => None
  end.

Definition step (st : pstate) (tok : token) : option pstate :=
  match st with
  | SValue stk => start_value tok stk
  | SArrFirst stk =>
      match tok with
      | TRBracket => Some (complete (JArr []) stk)
      | _ => start_value tok (InArr [] :: stk)
      end
  | SArrSep elems stk =>
      match tok with
      | TComma => Some (SValue (InArr elems :: stk))
      | TRBracket => Some (complete (JArr elems) stk)
      | _ => None
      end
  | SObjFirst stk =>
      match tok with
      | TRBrace => Some (complete (JObj []) stk)
      | TString k => Some (SColon [] k stk)
      | _ => None
      end
  | SKey members stk =>
      match tok with
      | TString k => Some (SColon members k stk)
      | _ => None
      end
  | SColon members k stk =>
      match tok with
      | TColon => Some (SValue (InObj members k :: stk))
      | _ => None
      end
  | SObjSep members stk =>
      match tok with
      | TComma => Some (SKey members stk)
      | TRBrace => Some (complete (JObj members) stk)
      | _ => None
      end
  | SDone _ => None
  end.

Fixpoint run (st : pstate) (toks : list token) : option pstate :=
  match toks with
  | [] => Some st
  | tok :: r => match step st tok with Some st' => run st' r | None => None end
  end.

(** [json.loads]: one value, white space around it, nothing else; a text
    that starts with a byte order mark is refused.  [None] is a
    [JSONDecodeError]. *)
Definition loads (t : text) : option json :=
  if starts_with [0xFEFF] t then None
  else
    match lex 0 t with
    | None => None
    | Some toks =>
        match run (SValue []) toks with
        | Some (SDone v) => Some v
        | _ => None
        end
    end.

End Json.

(* ===================================================================== *)
(** * The world of the program: console, clipboard, files *)
(* ===================================================================== *)

Module Sys.

Import Json.

(** The exceptions that can arise in the functions of the program. *)
Inductive exn :=
| FileNotFoundError
| JSONDecodeError
| UnicodeDecodeError
| UnicodeEncodeError
| EOFError.

Inductive outcome (A : Type) :=
| Ok (a : A)
| Raise (e : exn).

Arguments Ok {A} a.
Arguments Raise {A} e.

(** The state a command handler works on.
    - [data]: the dict that [main] loads once and hands to the handler; the
      handlers change it in place.
    - [stdin]: the lines the user will still type, without their newline.
    - [stdout]: all the text written to the console so far.  The encoding
      of the console is UTF-8, as for the files: [print] cannot write a
      text that holds a surrogate.
    - [clipboard]: the text on the system clipboard.
    - [files]: the regular files by path.  A path that is bound can be
      read and every path can be written: directories, permissions and
      paths that name no file (the empty path) are left out, and a path
      is its string, so that two spellings of one file are two paths.
      The statements speak of one path string and of paths that can be
      written.
    - [writes]: the file writes made so far, oldest first. *)
Record state := mkState {
  data : store;
  stdin : list text;
  stdout : text;
  clipboard : text;
  files : gmap text Codec.bytes;
  writes : list (text * Codec.bytes)
}.

Definition with_data (d : store) (st : state) : state :=
  mkState d (stdin st) (stdout st) (clipboard st) (files st) (writes st).
Definition with_stdin (l : list text) (st : state) : state :=
  mkState (data st) l (stdout st) (clipboard st) (files st) (writes st).
Definition with_stdout (o : text) (st : state) : state :=
  mkState (data st) (stdin st) o (clipboard st) (files st) (writes st).
Definition with_clipboard (c : text) (st : state) : state :=
  mkState (data st) (stdin st) (stdout st) c (files st) (writes st).
Definition with_file (path : text) (bs : Codec.bytes) (st : state) : state :=
  mkState (data st) (stdin st) (stdout st) (clipboard st)
          (<[path := bs]> (files st)) (writes st ++ [(path, bs)]).

(** A computation that reads and changes the state and returns or raises. *)
Definition M (A : Type) : Type := state -> outcome A * state.

Definition ret {A} (a : A) : M A := fun st => (Ok a, st).

Definition raise {A} (e : exn) : M A := fun st => (Raise e, st).

Definition bind {A B} (m : M A) (k : A -> M B) : M B :=
  fun st =>
    match m st with
    | (Ok a, st') => k a st'
    | (Raise e, st') => (Raise e, st')
    end.

(** [try: m  except ...: h]: the handler [h] tells which exceptions it
    takes; the others go on. *)
Definition try_except {A} (m : M A) (h : exn -> option (M A)) : M A :=
  fun st =>
    match m st with
    | (Ok a, st') => (Ok a, st')
    | (Raise e, st') =>
        match h e with
        | Some k => k st'
        | None => (Raise e, st')
        end
    end.

Declare Scope sys_scope.
Delimit Scope sys_scope with sys.
Notation "x <- m ;; k" := (bind m (fun x => k))
  (at level 100, m at next level, right associativity) : sys_scope.
Notation "m ;; k" := (bind m (fun _ => k))
  (at level 100, right associativity) : sys_scope.
Open Scope sys_scope.

(** Whether the console can take a text: whether the text has a UTF-8
    form. *)
Definition console_takes (s : text) : bool :=
  match Codec.write_text s with
  | Some _ => true
  | None => false
  end.

(** [print(s)]: the text, then a newline.  A text the console cannot take
    raises [UnicodeEncodeError] before any of it is written. *)
Definition print (s : text) : M unit :=
  fun st =>
    if console_takes s
    then (Ok tt, with_stdout (stdout st ++ s ++ [NL]) st)
    else (Raise UnicodeEncodeError, st).

(** [input(prompt)]: the prompt goes to the console without a newline, the
    result is the next line; [EOFError] when there is none.  The prompts
    of the program are made of fixed text and of a key that was read from
    this console, which the console can show: the encoding error of
    [print] is left out here. *)
Definition input (prompt : text) : M text :=
  fun st =>
    let st' := with_stdout (stdout st ++ prompt) st in
    match stdin st with
    | [] => (Raise EOFError, st')
    | l :: r => (Ok l, with_stdin r st')
    end.

(** [clipboard.paste()] and [clipboard.copy(s)] *)
Definition clipboard_paste : M text := fun st => (Ok (clipboard st), st).
Definition clipboard_copy (s : text) : M unit :=
  fun st => (Ok tt, with_clipboard s st).

(** The dict [data]: reading it, [data[key] = v] and [del data[key]]. *)
Definition get_data : M store := fun st => (Ok (data st), st).
Definition setitem (key v : text) : M unit :=
  fun st => (Ok tt, with_data (Dict.set key v (data st)) st).
Definition delitem (key : text) : M unit :=
  fun st => (Ok tt, with_data (Dict.del key (data st)) st).

(** [open(path, "r")] and reading it all as text. *)
Definition open_read (path : text) : M Codec.bytes :=
  fun st =>
    match files st !! path with
    | Some bs => (Ok bs, st)
    | None => (Raise FileNotFoundError, st)
    end.

Definition read (f : Codec.bytes) : M text :=
  match Codec.read_text f with
  | Some t => ret t
  | None => raise UnicodeDecodeError
  end.

(** [with open(path, "w") as f: f.write(t)]: the file is made or emptied,
    then takes the text. *)
Definition write_file (path : text) (t : text) : M unit :=
  fun st =>
    match Codec.write_text t with
    | Some bs => (Ok tt, with_file path bs st)
    | None => (Raise UnicodeEncodeError, with_file path [] st)
    end.

(** [json.load(f)] *)
Definition json_load (f : Codec.bytes) : M json :=
  t <- read f ;;
  match loads t with
  | Some v => ret v
  | None => raise JSONDecodeError
  end.

(** [json.dump(d, f)] into a file just opened for writing. *)
Definition json_dump (d : store) (path : text) : M unit :=
  write_file path (dumps d).

End Sys.

(* ===================================================================== *)
(** * The functions of [main.py] *)
(* ===================================================================== *)

Module Main.

Import Json Sys.

Definition SAVED_DATA : text := lit "clipboard.json".

(** [save_data(filepath, data)] *)
Definition save_data (filepath : text) (d : store) : M unit :=
  json_dump d filepath.

(** [load_data(filepath)]: the empty dict for a missing file, and, after a
    message, for a file that is not JSON; any other exception goes on to
    the caller. *)
Definition load_data (filepath : text) : M json :=
  try_except
    (f <- open_read filepath ;; json_load f)
    (fun e =>
       match e with
       | FileNotFoundError => Some (ret (JObj []))
       | JSONDecodeError =>
           Some (print (lit "Error: Invalid data format in the file.") ;;
                 ret (JObj []))
       | _ => None
       end).

(** The line [print(f"Key: {key}\tValue: {value}")] writes, without its
    newline. *)
Definition list_line (kv : text * text) : text :=
  lit "Key: " ++ kv.1 ++ [9] ++ lit "Value: " ++ kv.2.

Fixpoint print_items (items : list (text * text)) : M unit :=
  match items with
  | [] => ret tt
  | kv :: r => print (list_line kv) ;; print_items r
  end.

(** [process_list_command(data)] *)
Definition process_list_command : M unit :=
  d <- get_data ;;
  print_items d.

(** The end of [process_save_command], after the two early returns. *)
Definition store_clipboard (key : text) : M unit :=
  v <- clipboard_paste ;;
  setitem key v ;;
  d <- get_data ;;
  save_data SAVED_DATA d ;;
  print (lit "Data saved successfully.").

(** [process_save_command(data)] *)
Definition process_save_command : M unit :=
  key <- input (lit "Enter a key: ") ;;
  if decide (key = []) then print (lit "Error: Key cannot be empty.")
  else
    d <- get_data ;;
    if Dict.mem key d then
      overwrite <-
        input (lit "A key with name '" ++ key
               ++ lit "' already exists. Do you want to overwrite? (y/n): ") ;;
      if decide (lower overwrite <> lit "y")
      then print (lit "Save operation canceled.")
      else store_clipboard key
    else store_clipboard key.

(** [process_load_command(data)] *)
Definition process_load_command : M unit :=
  key <- input (lit "Enter a key: ") ;;
  if decide (key = []) then print (lit "Error: Key cannot be empty.")
  else
    d <- get_data ;;
    match Dict.get key d with
    | Some v =>
        clipboard_copy v ;;
        print (lit "Data has been copied to clipboard.")
    | None => print (lit "Key does not exist.")
    end.

(** [process_delete_command(data)] *)
Definition process_delete_command : M unit :=
  key <- input (lit "Enter a key: ") ;;
  if decide (key = []) then print (lit "Error: Key cannot be empty.")
  else
    d <- get_data ;;
    if Dict.mem key d then
      delitem key ;;
      d' <- get_data ;;
      save_data SAVED_DATA d' ;;
      print (lit "Entry deleted successfully.")
    else print (lit "Key does not exist.").

End Main.

(* ===================================================================== *)
(** * Notions the statements use *)
(* ===================================================================== *)

Module Spec.

Import Json Sys Main.
Open Scope sys_scope.

(** A number is a code point when it is at most U+10FFFF. *)
Definition is_codepoint (c : N) : Prop := c < 0x110000.

Definition valid_text (s : text) : Prop := Forall is_codepoint s.

(** No high surrogate stands right before a low surrogate. *)
Fixpoint no_surrogate_pair (s : text) : bool :=
  match s with
  | a :: r =>
      match r with
      | b :: _ => negb (is_high_surrogate a && is_low_surrogate b)
      | [] => true
      end && no_surrogate_pair r
  | [] => true
  end.

(** A string survives [json.dump] and [json.load] when it is made of code
    points and no high surrogate stands right before a low one. *)
Definition text_ok (s : text) : Prop :=
  valid_text s /\ no_surrogate_pair s = true.

Definition store_ok (d : store) : Prop :=
  Forall (fun kv => text_ok kv.1 /\ text_ok kv.2) d.

(** Printable ASCII: what [json.dump] writes, and nothing else. *)
Definition printable (c : N) : Prop := 0x20 <= c <= 0x7E.

(** [check_range p lo n] tests [p] on the [2^n] numbers from [lo] on. *)
Fixpoint check_range (p : N -> bool) (lo : N) (n : nat) : bool :=
  match n with
  | O => p lo
  | S n' => check_range p lo n' && check_range p (lo + 2 ^ N.of_nat n') n'
  end.

(** The two halves [json.dump] writes for a code point above U+FFFF. *)
Definition high_half (c : N) : N :=
  N.lor 0xD800 (N.land (N.shiftr (c - 0x10000) 10) 0x3FF).
Definition low_half (c : N) : N :=
  N.lor 0xDC00 (N.land (c - 0x10000) 0x3FF).

(** What the scanner sees right after the escape of a high surrogate: the
    escape of a low surrogate (or a malformed escape). *)
Definition peek_low (r2 : text) : bool :=
  match r2 with
  | b :: x :: g1 :: g2 :: g3 :: g4 :: _ =>
      (b =? BACKSLASH) && (x =? ch "u") &&
      match hex4_value g1 g2 g3 g4 with
      | Some u2 => is_low_surrogate u2
      | None => true
      end
  | _ => false
  end.

(** The tokens of the text [dumps] writes. *)
Definition item_tokens (kv : text * text) : list token :=
  [TString kv.1; TColon; TString kv.2].

Fixpoint items_tokens (d : store) : list token :=
  match d with
  | [] => []
  | [kv] => item_tokens kv
  | kv :: r => item_tokens kv ++ TComma :: items_tokens r
  end.

(** The members the decoder has after the items of [d], from [m] on. *)
Definition add_items (m : Dict.dict json) (d : store) : Dict.dict json :=
  fold_left (fun m kv => Dict.set kv.1 (JStr kv.2) m) d m.

(** The bytes of a file that holds the ASCII text [t]. *)
Definition ascii_bytes (t : text) : Codec.bytes := map Codec.byte_of t.

(** The content of the data file after [save_data] of [d]. *)
Definition saved (d : store) : Codec.bytes := ascii_bytes (dumps d).

(** ** The effects of a computation *)

(** The outcome and the final state of a computation. *)
Definition result {A} (m : M A) (st : state) : outcome A := (m st).1.
Definition exec {A} (m : M A) (st : state) : state := (m st).2.

(** The mapping is as it was and no file has been written. *)
Definition untouched (st st' : state) : Prop :=
  data st' = data st /\ files st' = files st /\ writes st' = writes st.

(** The data file has been written once more, with the text [json.dump]
    writes for the mapping [st'] ends with.  That this text holds the
    mapping, so that [load_data] gives the mapping back, is what
    [reads_back] below says. *)
Definition persisted (st st' : state) : Prop :=
  files st' = <[SAVED_DATA := saved (data st')]> (files st) /\
  writes st' = writes st ++ [(SAVED_DATA, saved (data st'))].

(** The prompts of the handlers. *)
Definition KEY_PROMPT : text := lit "Enter a key: ".
Definition overwrite_prompt (key : text) : text :=
  lit "A key with name '" ++ key
  ++ lit "' already exists. Do you want to overwrite? (y/n): ".
Definition EMPTY_KEY_MSG : text := lit "Error: Key cannot be empty.".

(** Everything [process_list_command] prints for the items of a dict. *)
Definition list_output (items : list (text * text)) : text :=
  flat_map (fun kv => list_line kv ++ [NL]) items.

(** The text a computation has added to the console. *)
Definition printed (st st' : state) (out : text) : Prop :=
  stdout st' = stdout st ++ out.

(** ** What the console can show *)

(** A Unicode scalar value: a code point that is no surrogate.  These are
    the characters that have a UTF-8 form. *)
Definition is_scalar (c : N) : bool :=
  (c <? 0x110000) && negb ((0xD800 <=? c) && (c <=? 0xDFFF)).

(** A text made of scalar values only. *)
Definition plain (s : text) : bool := forallb is_scalar s.

(** A dict whose keys and values are all plain. *)
Definition plain_store (d : store) : bool :=
  forallb (fun kv => plain kv.1 && plain kv.2) d.

(** The items of a dict before the first one whose key or value is not
    plain. *)
Fixpoint plain_prefix (items : list (text * text)) : list (text * text) :=
  match items with
  | [] => []
  | kv :: r =>
      if plain kv.1 && plain kv.2 then kv :: plain_prefix r else []
  end.

(** ** Reading the data file back *)

(** [load_data] reads the dict of the state back from the data file. *)
Definition reads_back (st : state) : Prop :=
  load_data SAVED_DATA st = (Ok (of_store (data st)), st).

(** The characters that open a container of JSON. *)
Definition is_opener (c : N) : bool := (c =? ch "[") || (c =? ch "{").

(** How many characters of a text pass a test. *)
Definition count_chars (p : N -> bool) (t : text) : nat :=
  length (List.filter p t).

(** A text the decoder reads within the limits of the interpreter: it
    opens at most 200 containers, so that the nesting stays far below the
    recursion limit (1000 by default), and it holds at most 4300 digits,
    the most an integer literal may have. *)
Definition within_limits (t : text) : Prop :=
  (count_chars is_opener t <= 200)%nat /\
  (count_chars is_digit t <= 4300)%nat.

(** ** The states and dicts of the examples *)

(** A state with an empty dict, no input, an empty clipboard and no file. *)
Definition blank : state := mkState [] [] [] [] ∅ [].

(** A dict whose one key is a high surrogate followed by a low one. *)
Definition surrogate_store : store := [([0xD83D; 0xDE00], lit "v")].

(** A dict with a value of two lines and a value outside ASCII. *)
Definition sample_store : store :=
  [(lit "greeting", lit "hello" ++ [NL] ++ lit "world");
   (lit "smile", [0x1F600; 0xE9])].

(** A data file that holds the single byte 0xFF. *)
Definition corrupt : state :=
  mkState [] [] [] [] {[ SAVED_DATA := [Byte.xff] ]} [].

(** A dict with one key, whose value is a text of two lines. *)
Definition two_line_store : store := [(lit "k", lit "a" ++ [NL] ++ lit "b")].

(** A dict with the text [v] under [k], the same text on the clipboard, and
    a user who types [k] and confirms the overwrite. *)
Definition same_text : state :=
  mkState [(lit "k", lit "v")] [lit "k"; lit "y"] [] (lit "v") ∅ [].

End Spec.

Import Spec.

(* ===================================================================== *)
(** * The program: [main] *)
(* ===================================================================== *)

Module Program.

Import Json Sys Main.
Open Scope sys_scope.

(** The four values of the positional argument [command]. *)
Inductive command := Save | Load | List | Delete.

Definition command_of (a : text) : option command :=
  if decide (a = lit "save") then Some Save
  else if decide (a = lit "load") then Some Load
  else if decide (a = lit "list") then Some List
  else if decide (a = lit "delete") then Some Delete
  else None.

(** An argument that starts with a dash: an option, or the words [-] and
    [--], which the parser treats in ways of their own. *)
Definition is_dashed (a : text) : bool :=
  match a with
  | c :: _ => c =? ch "-"
  | [] => false
  end.

(** What [parser.parse_args()] does with the command line. *)
Inductive parsed :=
| Parsed (c : command)
| Usage.

(** [parse_args] for a parser with the one positional argument [command]
    and its four choices, on a command line without dashed arguments: one
    argument that is one of the choices is the command; any other command
    line (no argument, several, one that is no choice) ends the program
    with status 2 after a message on the error stream, which is left out.
    Command lines with dashed arguments are outside the model: [None]. *)
Definition parse_args (argv : list text) : option parsed :=
  if existsb is_dashed argv then None
  else
    match argv with
    | [a] =>
        match command_of a with
        | Some c => Some (Parsed c)
        | None => Some Usage
        end
    | _ => Some Usage
    end.

(** How a run of the program ends: [main] returns, the parser exits with a
    status, or an exception leaves [main]. *)
Inductive ending :=
| Returned
| Exited (status : N)
| Uncaught (e : exn).

(** The dict of strings a JSON value is, when it is one. *)
Definition as_store (v : json) : option store :=
  match v with
  | JObj members =>
      mapM (fun kv : text * json =>
              match kv.2 with
              | JStr s => Some (kv.1, s)
              | _ => None
              end) members
  | _ => None
  end.

(** The chain of [if command == ...] of [main]. *)
Definition dispatch (c : command) : M unit :=
  match c with
  | Save => process_save_command
  | Load => process_load_command
  | List => process_list_command
  | Delete => process_delete_command
  end.

Definition finish (r : outcome unit * state) : ending * state :=
  match r with
  | (Ok _, st) => (Returned, st)
  | (Raise e, st) => (Uncaught e, st)
  end.

(** [main()], with the command line as its argument.  The command line is
    parsed first; then the data file is loaded into [data], whatever
    [data] held; then the handler of the command runs.  The handlers are
    modelled on dicts of strings, the data model of the program: when the
    data file holds JSON of another shape (a list, a number, an object
    with a value that is no string) the model gives no answer ([None]),
    as it does for a command line outside [parse_args].  The statements
    about [main] prove that it gives an answer; they do not assume it. *)
Definition main (argv : list text) (st : state) : option (ending * state) :=
  match parse_args argv with
  | None => None
  | Some Usage => Some (Exited 2, st)
  | Some (Parsed c) =>
      match load_data SAVED_DATA st with
      | (Raise e, st1) => Some (Uncaught e, st1)
      | (Ok v, st1) =>
          match as_store v with
          | Some d => Some (finish (dispatch c (with_data d st1)))
          | None => None
          end
      end
  end.

(** ** Notions about runs *)

(** The data file of [st] is what the program leaves for the dict [d]: the
    file [save_data] writes for it, or no file at all for the empty dict;
    [d] is a dict of strings that survive the round trip. *)
Definition stored (d : store) (st : state) : Prop :=
  Dict.wf d /\ store_ok d /\
  (files st !! SAVED_DATA = Some (saved d) \/
   (d = [] /\ files st !! SAVED_DATA = None)).


(** The data file is one the handlers are modelled for: whenever
    [load_data] returns, what it returns is a dict of strings.  That is so
    when the file is missing, when its bytes are no text (then [load_data]
    raises), when its text is not JSON (then [load_data] returns the empty
    dict) and when it is a JSON object whose values are all strings. *)
Definition holds_store (st : state) : Prop :=
  forall v st1, load_data SAVED_DATA st = (Ok v, st1) -> is_Some (as_store v).

(** The save command goes on to store the clipboard: the key is new, or
    it is in the dict and the answer confirms. *)
Definition save_goes_on (d : store) (key : text) (ins rest : list text) : Prop :=
  (Dict.get key d = None /\ ins = rest) \/
  (is_Some (Dict.get key d) /\
   exists answer, ins = answer :: rest /\ lower answer = lit "y").

Definition INVALID_MSG : text := lit "Error: Invalid data format in the file.".

End Program.

(* ===================================================================== *)
(** * Properties of strings and dicts *)
(* ===================================================================== *)

Module TextFacts.

Lemma check_range_spec (p : N -> bool) (n : nat) :
  forall lo, check_range p lo n = true ->
  forall x, lo <= x < lo + 2 ^ N.of_nat n -> p x = true.
Proof.
  induction n as [|n IH]; intros lo H x Hx.
  - simpl in *. assert (x = lo) as -> by lia. exact H.
  - cbn [check_range] in H. destruct (andb_prop _ _ H) as [H1 H2].
    assert (E : 2 ^ N.of_nat (S n) = 2 ^ N.of_nat n + 2 ^ N.of_nat n).
    { rewrite Nat2N.inj_succ, N.pow_succ_r'. lia. }
    rewrite E in Hx.
    destruct (N.lt_ge_cases x (lo + 2 ^ N.of_nat n)).
    + apply (IH lo H1). lia.
    + apply (IH _ H2). lia.
Qed.

Lemma lower_cp_nonempty (c : N) : (1 <= length (lower_cp c))%nat.
Proof.
  unfold lower_cp.
  repeat (match goal with |- context [if ?b then _ else _] => destruct b end);
    simpl; lia.
Qed.

(** The only strings whose lower-case form is ["y"] are ["y"] and ["Y"]. *)
Lemma lower_is_y (s : text) :
  lower s = lit "y" <-> s = lit "y" \/ s = lit "Y".
Proof.
  assert (Ey : lit "y" = [121]) by reflexivity.
  assert (EY : lit "Y" = [89]) by reflexivity.
  rewrite Ey, EY. split.
  - destruct s as [|c [|c' r]]; unfold lower; cbn [flat_map]; intros Hy.
    + discriminate.
    + rewrite app_nil_r in Hy. unfold lower_cp in Hy.
      destruct ((65 <=? c) && (c <=? 90)) eqn:E1.
      { right. inversion Hy. f_equal. lia. }
      destruct (c =? 0x130); [discriminate|].
      destruct (c =? 0x212A); [discriminate|].
      left. exact Hy.
    + exfalso.
      assert (L : (length (lower_cp c ++ lower_cp c' ++ flat_map lower_cp r) = 1)%nat)
        by (rewrite Hy; reflexivity).
      rewrite !length_app in L.
      pose proof (lower_cp_nonempty c). pose proof (lower_cp_nonempty c'). lia.
  - intros [-> | ->]; reflexivity.
Qed.

End TextFacts.

Module DictFacts.

Section facts.
Context {V : Type}.
Implicit Types (d : Dict.dict V) (k : text) (v : V).

Lemma get_None_keys k d : Dict.get k d = None <-> k ∉ Dict.keys d.
Proof.
  induction d as [|[k' v'] r IH]; simpl.
  - split; [intros _; apply not_elem_of_nil | done].
  - destruct (decide (k = k')) as [->|Hne].
    + split; [discriminate | intros H; exfalso; apply H; left].
    + rewrite IH. rewrite not_elem_of_cons. tauto.
Qed.

Lemma mem_true k d : Dict.mem k d = true <-> is_Some (Dict.get k d).
Proof. unfold Dict.mem. apply bool_decide_eq_true. Qed.

Lemma mem_false k d : Dict.mem k d = false <-> Dict.get k d = None.
Proof.
  unfold Dict.mem. rewrite bool_decide_eq_false.
  rewrite eq_None_not_Some. done.
Qed.

(** [d[k] = v] and then [d.get(k')] *)
Lemma get_set k k' v d :
  Dict.get k' (Dict.set k v d) = if decide (k' = k) then Some v else Dict.get k' d.
Proof.
  induction d as [|[k0 v0] r IH]; simpl.
  - destruct (decide (k' = k)); done.
  - destruct (decide (k = k0)) as [->|Hne]; simpl.
    + destruct (decide (k' = k0)); done.
    + destruct (decide (k' = k0)) as [->|Hne'].
      * destruct (decide (k0 = k)); [congruence | done].
      * exact IH.
Qed.

Lemma set_fresh k v d : Dict.get k d = None -> Dict.set k v d = d ++ [(k, v)].
Proof.
  induction d as [|[k0 v0] r IH]; simpl; [done|].
  destruct (decide (k = k0)); [discriminate|].
  intros H. by rewrite IH.
Qed.

Lemma keys_set_present k v d :
  is_Some (Dict.get k d) -> Dict.keys (Dict.set k v d) = Dict.keys d.
Proof.
  induction d as [|[k0 v0] r IH]; simpl.
  - intros [? ?]. discriminate.
  - destruct (decide (k = k0)); simpl; [done|].
    intros H. by rewrite IH.
Qed.

Lemma wf_set k v d : Dict.wf d -> Dict.wf (Dict.set k v d).
Proof.
  unfold Dict.wf. intros Hd.
  destruct (Dict.get k d) eqn:E.
  - rewrite keys_set_present; [done | by eexists].
  - rewrite set_fresh by done. unfold Dict.keys. rewrite map_app. simpl.
    apply NoDup_app. split; [done|]. split.
    + intros x Hx Hx'. apply list_elem_of_singleton in Hx' as ->.
      by apply get_None_keys in E.
    + apply NoDup_singleton.
Qed.

(** [del d[k]] and then [d.get(k')], in a dict *)
Lemma get_del k k' d :
  Dict.wf d ->
  Dict.get k' (Dict.del k d) = if decide (k' = k) then None else Dict.get k' d.
Proof.
  unfold Dict.wf. induction d as [|[k0 v0] r IH]; simpl; intros Hd.
  - destruct (decide (k' = k)); done.
  - apply NoDup_cons in Hd as [Hk0 Hr].
    destruct (decide (k = k0)) as [->|Hne]; simpl.
    + destruct (decide (k' = k0)) as [->|]; [|done].
      by apply get_None_keys.
    + destruct (decide (k' = k0)) as [->|Hne'].
      * destruct (decide (k0 = k)); [congruence | done].
      * by apply IH.
Qed.

Lemma keys_del k d : Dict.keys (Dict.del k d) ⊆ Dict.keys d.
Proof.
  induction d as [|[k0 v0] r IH]; simpl; [done|].
  destruct (decide (k = k0)); simpl.
  - intros x Hx. by right.
  - intros x Hx. apply elem_of_cons in Hx as [->|Hx]; [left|right; by apply IH].
Qed.

Lemma wf_del k d : Dict.wf d -> Dict.wf (Dict.del k d).
Proof.
  unfold Dict.wf. induction d as [|[k0 v0] r IH]; simpl; [done|].
  intros Hd. apply NoDup_cons in Hd as [Hk0 Hr].
  destruct (decide (k = k0)); [done|]. simpl.
  apply NoDup_cons. split; [|by apply IH].
  intros Hin. apply Hk0. by apply (keys_del k r).
Qed.

Lemma del_absent k d : Dict.get k d = None -> Dict.del k d = d.
Proof.
  induction d as [|[k0 v0] r IH]; simpl; [done|].
  destruct (decide (k = k0)); [discriminate|].
  intros H. by rewrite IH.
Qed.

(** Deleting a key that is present takes exactly one item away. *)
Lemma length_del k d :
  is_Some (Dict.get k d) -> length d = S (length (Dict.del k d)).
Proof.
  induction d as [|[k0 v0] r IH]; simpl.
  - intros [? ?]; discriminate.
  - destruct (decide (k = k0)); simpl; [done|].
    intros H. by rewrite <- IH.
Qed.

End facts.

End DictFacts.

(* ===================================================================== *)
(** * Properties of the JSON encoder and decoder *)
(* ===================================================================== *)

Module JsonFacts.

Import Json TextFacts.

(** Four hexadecimal digits are read back as the number they were written
    from. *)
Lemma hex4_value_hex4 (u : N) :
  u < 0x10000 ->
  match hex4 u with
  | [h1; h2; h3; h4] => hex4_value h1 h2 h3 h4 = Some u
  | _ => False
  end.
Proof.
  intros Hu.
  assert (C : check_range
            (fun u => match hex4 u with
                      | [h1; h2; h3; h4] =>
                          match hex4_value h1 h2 h3 h4 with
                          | Some u' => u' =? u
                          | None => false
                          end
                      | _ => false
                      end) 0 16 = true) by (vm_compute; reflexivity).
  pose proof (check_range_spec _ _ _ C u) as P.
  cbv beta in P. unfold hex4 in *.
  destruct (hex4_value _ _ _ _) as [u'|]; [|discriminate P; simpl; lia].
  f_equal. apply N.eqb_eq. apply P. simpl. lia.
Qed.

Lemma split_bits (v k : N) :
  N.lor (N.shiftl (N.shiftr v k) k) (N.land v (N.ones k)) = v.
Proof.
  apply N.bits_inj. intros i.
  rewrite N.lor_spec, N.land_spec.
  destruct (N.lt_ge_cases i k) as [Hlt|Hge].
  - rewrite N.shiftl_spec_low by done.
    rewrite N.ones_spec_low by done.
    simpl. by rewrite andb_true_r.
  - rewrite N.shiftl_spec_high' by done.
    rewrite N.shiftr_spec'.
    rewrite N.ones_spec_high by done.
    rewrite andb_false_r, orb_false_r.
    f_equal. lia.
Qed.

Lemma lor_surrogate_base (x : N) :
  x < 1024 -> N.lor 0xD800 x = 0xD800 + x /\ N.lor 0xDC00 x = 0xDC00 + x.
Proof.
  intros Hx.
  assert (C : check_range
            (fun x => (N.lor 0xD800 x =? 0xD800 + x)
                      && (N.lor 0xDC00 x =? 0xDC00 + x)) 0 10 = true)
    by (vm_compute; reflexivity).
  pose proof (check_range_spec _ _ _ C x) as P. cbv beta in P.
  assert (R : 0 <= x < 0 + 2 ^ N.of_nat 10) by (simpl; lia).
  specialize (P R). apply andb_prop in P as [P1 P2].
  by apply N.eqb_eq in P1, P2.
Qed.

Lemma land_1023_lt (x : N) : N.land x 0x3FF < 1024.
Proof.
  change 0x3FF with (N.ones 10). rewrite N.land_ones.
  apply N.mod_lt. done.
Qed.

Lemma halves_spec (c : N) :
  0x10000 <= c < 0x110000 ->
  is_high_surrogate (high_half c) = true /\
  is_low_surrogate (low_half c) = true /\
  join_surrogates (high_half c) (low_half c) = c.
Proof.
  intros Hc. unfold high_half, low_half, join_surrogates.
  set (v := c - 0x10000).
  assert (Hv : v < 2 ^ 20) by (subst v; simpl; lia).
  pose proof (land_1023_lt (N.shiftr v 10)) as Ha.
  pose proof (land_1023_lt v) as Hb.
  destruct (lor_surrogate_base _ Ha) as [-> _].
  destruct (lor_surrogate_base _ Hb) as [_ ->].
  assert (Es : N.land (N.shiftr v 10) 0x3FF = N.shiftr v 10).
  { change 0x3FF with (N.ones 10). rewrite N.land_ones.
    apply N.mod_small. rewrite N.shiftr_div_pow2.
    apply N.Div0.div_lt_upper_bound. simpl in *. lia. }
  unfold is_high_surrogate, is_low_surrogate.
  split; [|split].
  - apply andb_true_intro. split; apply N.leb_le; lia.
  - apply andb_true_intro. split; apply N.leb_le; lia.
  - replace (0xD800 + N.land (N.shiftr v 10) 0x3FF - 0xD800)
      with (N.land (N.shiftr v 10) 0x3FF) by lia.
    replace (0xDC00 + N.land v 0x3FF - 0xDC00) with (N.land v 0x3FF) by lia.
    rewrite Es. change 0x3FF with (N.ones 10).
    rewrite split_bits. subst v. lia.
Qed.

(** ** Reading back an encoded string *)

Lemma scanstring_cons (c : N) (r : text) :
  scanstring (c :: r) =
  if c =? QUOTE then Some ([], 1%nat)
  else if c =? BACKSLASH then scanstring (BACKSLASH :: r)
  else if c <? 0x20 then None
  else bump c 1 (scanstring r).
Proof.
  destruct (N.eqb_spec c BACKSLASH) as [->|Hne]; [reflexivity|].
  cbn [scanstring]. apply N.eqb_neq in Hne. rewrite Hne. reflexivity.
Qed.

Lemma scanstring_u (h1 h2 h3 h4 : N) (r2 : text) :
  scanstring (BACKSLASH :: ch "u" :: h1 :: h2 :: h3 :: h4 :: r2) =
  match hex4_value h1 h2 h3 h4 with
  | None => None
  | Some u =>
      if is_high_surrogate u && peek_low r2 then
        match r2 with
        | _ :: _ :: g1 :: g2 :: g3 :: g4 :: r3 =>
            match hex4_value g1 g2 g3 g4 with
            | Some u2 => bump (join_surrogates u u2) 12 (scanstring r3)
            | None => None
            end
        | _ => None
        end
      else bump u 6 (scanstring r2)
  end.
Proof.
  cbn [scanstring].
  change (BACKSLASH =? QUOTE) with false.
  change (BACKSLASH =? BACKSLASH) with true.
  change (ch "u" =? ch "u") with true. cbv iota.
  destruct (hex4_value h1 h2 h3 h4) as [u|]; [|reflexivity].
  destruct (is_high_surrogate u); [|reflexivity].
  destruct r2 as [|b [|x [|g1 [|g2 [|g3 [|g4 r3]]]]]]; try reflexivity.
  cbn [peek_low andb].
  destruct (b =? BACKSLASH); [|reflexivity].
  destruct (x =? ch "u"); [|reflexivity].
  cbn [andb].
  destruct (hex4_value g1 g2 g3 g4) as [u2|]; [|reflexivity].
  destruct (is_low_surrogate u2); reflexivity.
Qed.

Lemma scan_uescape (u : N) (r2 : text) :
  u < 0x10000 ->
  (is_high_surrogate u = true -> peek_low r2 = false) ->
  scanstring (uescape u ++ r2) = bump u 6 (scanstring r2).
Proof.
  intros Hu Hpeek. pose proof (hex4_value_hex4 u Hu) as Hhex.
  unfold uescape, hex4 in *. cbn [app].
  rewrite scanstring_u, Hhex.
  destruct (is_high_surrogate u); [|reflexivity].
  rewrite Hpeek by reflexivity. reflexivity.
Qed.

Lemma high_surrogate_lt (u : N) : is_high_surrogate u = true -> u < 0x10000.
Proof.
  unfold is_high_surrogate. intros H. apply andb_prop in H as [_ H].
  apply N.leb_le in H. lia.
Qed.

Lemma low_surrogate_lt (u : N) : is_low_surrogate u = true -> u < 0x10000.
Proof.
  unfold is_low_surrogate. intros H. apply andb_prop in H as [_ H].
  apply N.leb_le in H. lia.
Qed.

Lemma high_not_low (u : N) :
  is_high_surrogate u = true -> is_low_surrogate u = false.
Proof.
  unfold is_high_surrogate, is_low_surrogate. intros H.
  apply andb_prop in H as [_ H]. apply N.leb_le in H.
  apply andb_false_intro1. apply N.leb_gt. lia.
Qed.

Lemma peek_low_uescape (u : N) (tail : text) :
  u < 0x10000 -> peek_low (uescape u ++ tail) = is_low_surrogate u.
Proof.
  intros Hu. pose proof (hex4_value_hex4 u Hu) as Hhex.
  unfold uescape, hex4 in *. cbn [app peek_low]. rewrite Hhex. reflexivity.
Qed.

Lemma scan_pair (c : N) (tail : text) :
  0x10000 <= c < 0x110000 ->
  scanstring (uescape (high_half c) ++ uescape (low_half c) ++ tail)
  = bump c 12 (scanstring tail).
Proof.
  intros Hc. destruct (halves_spec c Hc) as (Hh & Hl & Hj).
  pose proof (high_surrogate_lt _ Hh) as Hh'.
  pose proof (low_surrogate_lt _ Hl) as Hl'.
  pose proof (hex4_value_hex4 _ Hh') as Xh.
  pose proof (hex4_value_hex4 _ Hl') as Xl.
  pose proof (peek_low_uescape (low_half c) tail Hl') as Pk.
  unfold uescape, hex4 in *. cbn [app] in *.
  rewrite scanstring_u, Xh, Hh, Pk, Hl. cbn [andb]. rewrite Xl, Hj.
  reflexivity.
Qed.

Lemma escape_cp_pair (c : N) :
  0x10000 <= c ->
  escape_cp c = uescape (high_half c) ++ uescape (low_half c).
Proof.
  intros Hc. unfold escape_cp.
  repeat (match goal with |- context [?a =? ?b] =>
            destruct (N.eqb_spec a b) as [E|_];
            [exfalso; unfold QUOTE, BACKSLASH in E; lia|] end).
  destruct (N.leb_spec 0x20 c); destruct (N.leb_spec c 0x7E); try lia.
  cbn [andb]. destruct (N.ltb_spec c 0x10000); [lia|]. reflexivity.
Qed.

(** The escape of one code point is read back as that code point, unless
    it is a high surrogate before the escape of a low one. *)
Lemma scan_escape_cp (c : N) (tail : text) :
  is_codepoint c ->
  (is_high_surrogate c = true -> peek_low tail = false) ->
  scanstring (escape_cp c ++ tail)
  = bump c (length (escape_cp c)) (scanstring tail).
Proof.
  intros Hc Hpeek.
  destruct (N.lt_ge_cases c 0x10000) as [Hlt|Hge].
  2:{ rewrite escape_cp_pair by done. rewrite <- app_assoc.
      rewrite scan_pair by (unfold is_codepoint in Hc; lia). reflexivity. }
  unfold escape_cp.
  repeat (match goal with |- context [?a =? ?b] =>
            destruct (N.eqb_spec a b) as [->|?]; [reflexivity|] end).
  destruct ((0x20 <=? c) && (c <=? 0x7E)) eqn:Ep.
  - apply andb_prop in Ep as [E1 E2]. apply N.leb_le in E1.
    cbn [app length]. rewrite scanstring_cons.
    destruct (N.eqb_spec c QUOTE); [done|].
    destruct (N.eqb_spec c BACKSLASH); [done|].
    destruct (N.ltb_spec c 0x20); [lia|]. reflexivity.
  - destruct (N.ltb_spec c 0x10000); [|lia].
    rewrite scan_uescape by done. reflexivity.
Qed.

Lemma peek_low_quote (rest : text) : peek_low (QUOTE :: rest) = false.
Proof. destruct rest as [|? [|? [|? [|? [|? ?]]]]]; reflexivity. Qed.

Lemma peek_low_escape (c : N) (tail : text) :
  is_low_surrogate c = false -> peek_low (escape_cp c ++ tail) = false.
Proof.
  intros Hlow.
  destruct (N.lt_ge_cases c 0x10000) as [Hlt|Hge].
  2:{ rewrite escape_cp_pair by done. rewrite <- app_assoc.
      destruct (N.lt_ge_cases c 0x110000) as [Hcp|Hbig].
      - destruct (halves_spec c (conj Hge Hcp)) as (Hh & _ & _).
        rewrite peek_low_uescape by (by apply high_surrogate_lt).
        by apply high_not_low.
      - unfold high_half.
        pose proof (land_1023_lt (N.shiftr (c - 0x10000) 10)) as Ha.
        destruct (lor_surrogate_base _ Ha) as [E _].
        rewrite peek_low_uescape by (rewrite E; lia).
        rewrite E. unfold is_low_surrogate.
        apply andb_false_intro1. apply N.leb_gt. lia. }
  unfold escape_cp.
  repeat (match goal with |- context [?a =? ?b] =>
            destruct (N.eqb_spec a b) as [->|?];
            [destruct tail as [|? [|? [|? [|? ?]]]]; reflexivity|] end).
  destruct ((0x20 <=? c) && (c <=? 0x7E)) eqn:Ep.
  - cbn [app].
    destruct tail as [|? [|? [|? [|? [|? ?]]]]]; try reflexivity.
    cbn [peek_low]. destruct (N.eqb_spec c BACKSLASH); [done|reflexivity].
  - destruct (N.ltb_spec c 0x10000); [|lia].
    rewrite peek_low_uescape by done. exact Hlow.
Qed.

(** [scanstring] reads the body [encode_string] writes back as the string
    it was written from. *)
Lemma scanstring_encode (s : text) (rest : text) :
  valid_text s -> no_surrogate_pair s = true ->
  scanstring (flat_map escape_cp s ++ QUOTE :: rest)
  = Some (s, S (length (flat_map escape_cp s))).
Proof.
  induction s as [|c s IH]; intros Hv Hp.
  - reflexivity.
  - apply Forall_cons in Hv as [Hc Hv].
    cbn [no_surrogate_pair] in Hp. apply andb_prop in Hp as [Hcp Hp].
    cbn [flat_map]. rewrite <- app_assoc.
    rewrite scan_escape_cp; [| done |].
    + rewrite IH by done. cbn [bump]. rewrite length_app.
      do 2 f_equal. lia.
    + intros Hhigh. destruct s as [|c' s'].
      * apply peek_low_quote.
      * cbn [flat_map]. rewrite <- app_assoc. apply peek_low_escape.
        rewrite Hhigh in Hcp. cbn [andb] in Hcp.
        by apply negb_true_iff in Hcp.
Qed.

(** ** Reading back an encoded dict *)

Lemma lex_skip (a b : text) : lex (length a) (a ++ b) = lex 0 b.
Proof. induction a as [|c a IH]; [reflexivity | exact IH]. Qed.

Lemma lex_string (s rest : text) :
  text_ok s ->
  lex 0 (encode_string s ++ rest) = cons (TString s) <$> lex 0 rest.
Proof.
  intros [Hv Hp]. unfold encode_string.
  change ((QUOTE :: flat_map escape_cp s ++ [QUOTE]) ++ rest)
    with (QUOTE :: (flat_map escape_cp s ++ [QUOTE]) ++ rest).
  change (lex 0 (QUOTE :: (flat_map escape_cp s ++ [QUOTE]) ++ rest))
    with (match scanstring ((flat_map escape_cp s ++ [QUOTE]) ++ rest) with
          | Some (s', n) =>
              cons (TString s') <$> lex n ((flat_map escape_cp s ++ [QUOTE]) ++ rest)
          | None => None
          end).
  rewrite <- (app_assoc _ [QUOTE] rest) at 1. cbn [app].
  rewrite scanstring_encode by done.
  replace (S (length (flat_map escape_cp s)))
    with (length (flat_map escape_cp s ++ [QUOTE]))
    by (rewrite length_app; simpl; lia).
  by rewrite lex_skip.
Qed.

Lemma lex_item (kv : text * text) (rest : text) :
  text_ok kv.1 -> text_ok kv.2 ->
  lex 0 (encode_item kv ++ rest) = (item_tokens kv ++.) <$> lex 0 rest.
Proof.
  intros Hk Hv. unfold encode_item, item_tokens.
  rewrite <- !app_assoc. rewrite lex_string by done.
  change (lit ": " ++ encode_string kv.2 ++ rest)
    with (ch ":" :: 32 :: encode_string kv.2 ++ rest).
  change (lex 0 (ch ":" :: 32 :: encode_string kv.2 ++ rest))
    with (cons TColon <$> lex 0 (encode_string kv.2 ++ rest)).
  rewrite lex_string by done.
  by destruct (lex 0 rest).
Qed.

Lemma lex_items (d : store) (rest : text) :
  store_ok d ->
  lex 0 (encode_items d ++ rest) = (items_tokens d ++.) <$> lex 0 rest.
Proof.
  induction d as [|kv d IH]; intros Hd.
  - cbn [encode_items items_tokens app]. by destruct (lex 0 rest).
  - apply Forall_cons in Hd as [[Hk Hv] Hd].
    destruct d as [|kv' d'].
    + cbn [encode_items items_tokens]. by apply lex_item.
    + change (encode_items (kv :: kv' :: d'))
        with (encode_item kv ++ lit ", " ++ encode_items (kv' :: d')).
      change (items_tokens (kv :: kv' :: d'))
        with (item_tokens kv ++ TComma :: items_tokens (kv' :: d')).
      rewrite <- !app_assoc. rewrite lex_item by done.
      change (lit ", " ++ encode_items (kv' :: d') ++ rest)
        with (ch "," :: 32 :: encode_items (kv' :: d') ++ rest).
      change (lex 0 (ch "," :: 32 :: encode_items (kv' :: d') ++ rest))
        with (cons TComma <$> lex 0 (encode_items (kv' :: d') ++ rest)).
      rewrite IH by done.
      destruct (lex 0 rest); reflexivity.
Qed.

Lemma lex_dumps (d : store) :
  store_ok d -> lex 0 (dumps d) = Some (TLBrace :: items_tokens d ++ [TRBrace]).
Proof.
  intros Hd. unfold dumps.
  change (lex 0 (ch "{" :: encode_items d ++ [ch "}"]))
    with (cons TLBrace <$> lex 0 (encode_items d ++ [ch "}"])).
  rewrite lex_items by done. reflexivity.
Qed.

Lemma run_items (d : store) :
  forall m, d <> [] ->
  run (SKey m []) (items_tokens d ++ [TRBrace])
  = Some (SDone (JObj (add_items m d))).
Proof.
  induction d as [|kv d IH]; intros m Hne; [done|].
  destruct d as [|kv' d'].
  - reflexivity.
  - change (items_tokens (kv :: kv' :: d'))
      with (item_tokens kv ++ TComma :: items_tokens (kv' :: d')).
    unfold item_tokens. cbn [app run step start_value complete].
    rewrite IH by done. reflexivity.
Qed.

Lemma run_dumps (d : store) :
  run (SValue []) (TLBrace :: items_tokens d ++ [TRBrace])
  = Some (SDone (JObj (add_items [] d))).
Proof.
  destruct d as [|kv d]; [reflexivity|].
  rewrite <- (run_items (kv :: d) []) by done.
  destruct d; reflexivity.
Qed.

Lemma add_items_fresh (d : store) :
  forall m, NoDup (Dict.keys m ++ Dict.keys d) ->
  add_items m d = m ++ map (fun kv => (kv.1, JStr kv.2)) d.
Proof.
  induction d as [|[k v] d IH]; intros m Hnd.
  - cbn. by rewrite app_nil_r.
  - cbn [add_items fold_left]. cbn [fst snd].
    assert (Hk : Dict.get k m = None).
    { apply DictFacts.get_None_keys. apply NoDup_app in Hnd as (_ & Hd & _).
      intros Hin. apply (Hd k Hin). left. }
    rewrite DictFacts.set_fresh by done.
    fold (add_items (m ++ [(k, JStr v)]) d). rewrite IH.
    + cbn. by rewrite <- app_assoc.
    + unfold Dict.keys in *. rewrite map_app. cbn. by rewrite <- app_assoc.
Qed.

(** [json.loads(json.dumps(d)) == d] *)
Lemma loads_dumps (d : store) :
  Dict.wf d -> store_ok d -> loads (dumps d) = Some (of_store d).
Proof.
  intros Hwf Hok. unfold loads.
  change (starts_with [0xFEFF] (dumps d)) with false. cbv iota.
  rewrite lex_dumps by done. rewrite run_dumps.
  rewrite add_items_fresh by done. reflexivity.
Qed.

End JsonFacts.

(* ===================================================================== *)
(** * Properties of text files *)
(* ===================================================================== *)

Module CodecFacts.

Import Json Codec TextFacts JsonFacts.

Lemma to_N_byte_of (n : N) : n < 256 -> Byte.to_N (byte_of n) = n.
Proof.
  intros Hn. unfold byte_of.
  destruct (Byte.of_N n) as [b|] eqn:E.
  - by apply Byte.to_of_N.
  - apply Byte.of_N_None_iff in E. lia.
Qed.

(** ASCII text is written one byte for each character. *)
Lemma utf8_encode_ascii (t : text) :
  Forall printable t -> utf8_encode t = Some (ascii_bytes t).
Proof.
  induction 1 as [|c t Hc _ IH]; [reflexivity|].
  cbn [utf8_encode]. rewrite IH. unfold utf8_encode_cp.
  destruct (N.ltb_spec c 0x80); [reflexivity|].
  unfold printable in Hc. lia.
Qed.

Lemma utf8_decode_ascii (t : text) :
  Forall printable t -> utf8_decode (ascii_bytes t) = Some t.
Proof.
  induction 1 as [|c t Hc _ IH]; [reflexivity|].
  unfold ascii_bytes in *. cbn [map utf8_decode]. cbv zeta.
  unfold printable in Hc.
  rewrite to_N_byte_of by lia.
  destruct (N.ltb_spec c 0x80); [|lia].
  by rewrite IH.
Qed.

Lemma universal_newlines_printable (t : text) :
  Forall printable t -> universal_newlines t = t.
Proof.
  induction 1 as [|c t Hc _ IH]; [reflexivity|].
  cbn [universal_newlines].
  destruct (N.eqb_spec c 13) as [->|_].
  - unfold printable in Hc. lia.
  - by rewrite IH.
Qed.

(** Printable text that is written to a file is read back as it was. *)
Lemma write_read_printable (t : text) :
  Forall printable t ->
  write_text t = Some (ascii_bytes t) /\ read_text (ascii_bytes t) = Some t.
Proof.
  intros Ht. split.
  - by apply utf8_encode_ascii.
  - unfold read_text. rewrite utf8_decode_ascii by done.
    cbn. by rewrite universal_newlines_printable.
Qed.

Lemma hexdigit_printable (x : N) : printable (hexdigit (N.land x 15)).
Proof.
  assert (N.land x 15 < 16).
  { change 15 with (N.ones 4). rewrite N.land_ones. by apply N.mod_lt. }
  unfold hexdigit, printable.
  destruct (N.ltb_spec (N.land x 15) 10); lia.
Qed.

Lemma uescape_printable (c : N) : Forall printable (uescape c).
Proof.
  unfold uescape, hex4.
  repeat (apply Forall_cons_2); try apply hexdigit_printable;
    try apply Forall_nil_2; unfold printable; vm_compute; split; discriminate.
Qed.

Lemma escape_cp_printable (c : N) : Forall printable (escape_cp c).
Proof.
  unfold escape_cp.
  repeat (match goal with |- context [?a =? ?b] =>
            destruct (N.eqb_spec a b) as [_|_];
            [repeat (apply Forall_cons_2); try apply Forall_nil_2;
             unfold printable; vm_compute; split; discriminate|] end).
  destruct ((0x20 <=? c) && (c <=? 0x7E)) eqn:Ep.
  - apply andb_prop in Ep as [E1 E2]. apply N.leb_le in E1, E2.
    apply Forall_cons_2; [unfold printable; lia | apply Forall_nil_2].
  - destruct (c <? 0x10000).
    + apply uescape_printable.
    + apply Forall_app. split; apply uescape_printable.
Qed.

Lemma encode_string_printable (s : text) : Forall printable (encode_string s).
Proof.
  unfold encode_string. apply Forall_cons_2.
  { unfold printable; vm_compute; split; discriminate. }
  apply Forall_app. split.
  - induction s as [|c s IH]; [apply Forall_nil_2|].
    cbn [flat_map]. apply Forall_app. split; [apply escape_cp_printable | done].
  - apply Forall_cons_2; [|apply Forall_nil_2].
    unfold printable; vm_compute; split; discriminate.
Qed.

Lemma lit_printable_sep :
  Forall printable (lit ": ") /\ Forall printable (lit ", ").
Proof.
  split; repeat (apply Forall_cons_2); try apply Forall_nil_2;
    unfold printable; vm_compute; split; discriminate.
Qed.

Lemma encode_item_printable (kv : text * text) : Forall printable (encode_item kv).
Proof.
  unfold encode_item. apply Forall_app. split; [apply encode_string_printable|].
  apply Forall_app. split; [apply lit_printable_sep | apply encode_string_printable].
Qed.

Lemma encode_items_printable (d : store) : Forall printable (encode_items d).
Proof.
  induction d as [|kv d IH]; [apply Forall_nil_2|].
  destruct d as [|kv' d'].
  - apply encode_item_printable.
  - change (encode_items (kv :: kv' :: d'))
      with (encode_item kv ++ lit ", " ++ encode_items (kv' :: d')).
    apply Forall_app. split; [apply encode_item_printable|].
    apply Forall_app. split; [apply lit_printable_sep | exact IH].
Qed.

(** [json.dump] writes printable ASCII only. *)
Lemma dumps_printable (d : store) : Forall printable (dumps d).
Proof.
  unfold dumps. apply Forall_cons_2.
  { unfold printable; vm_compute; split; discriminate. }
  apply Forall_app. split; [apply encode_items_printable|].
  apply Forall_cons_2; [|apply Forall_nil_2].
  unfold printable; vm_compute; split; discriminate.
Qed.

Lemma write_text_dumps (d : store) : write_text (dumps d) = Some (saved d).
Proof. apply write_read_printable, dumps_printable. Qed.

Lemma read_text_saved (d : store) : read_text (saved d) = Some (dumps d).
Proof. apply write_read_printable, dumps_printable. Qed.

End CodecFacts.

(* ===================================================================== *)
(** * The runs of the functions of [main.py] *)
(* ===================================================================== *)

Module MainFacts.

Import Json Sys Main DictFacts CodecFacts JsonFacts.
Open Scope sys_scope.

Lemma bind_run {A B} (m : M A) (k : A -> M B) (st : state) :
  bind m k st =
  match m st with
  | (Ok a, st') => k a st'
  | (Raise e, st') => (Raise e, st')
  end.
Proof. reflexivity. Qed.

Lemma input_line (prompt l : text) (r : list text) (st : state) :
  stdin st = l :: r ->
  input prompt st = (Ok l, with_stdin r (with_stdout (stdout st ++ prompt) st)).
Proof. unfold input. by intros ->. Qed.

Lemma input_eof (prompt : text) (st : state) :
  stdin st = [] ->
  input prompt st = (Raise EOFError, with_stdout (stdout st ++ prompt) st).
Proof. unfold input. by intros ->. Qed.

(** In this model, where every path can be written, [save_data] returns:
    the text of a dict is ASCII, which the encoder of the file takes. *)
Lemma save_data_run (filepath : text) (d : store) (st : state) :
  save_data filepath d st = (Ok tt, with_file filepath (saved d) st).
Proof.
  unfold save_data, json_dump, write_file. by rewrite write_text_dumps.
Qed.

Lemma print_takes (s : text) (st : state) :
  console_takes s = true ->
  print s st = (Ok tt, with_stdout (stdout st ++ s ++ [NL]) st).
Proof. unfold print. by intros ->. Qed.

Lemma print_refused (s : text) (st : state) :
  console_takes s = false -> print s st = (Raise UnicodeEncodeError, st).
Proof. unfold print. by intros ->. Qed.

(** The fixed messages of the program are ASCII. *)
Ltac print_message := rewrite print_takes by (vm_compute; reflexivity).

(** The first statement of a handler: [key = input(...)] with a line to
    read, and then the test [if not key]. *)
Ltac ask_key Hin :=
  rewrite bind_run, (input_line _ _ _ _ Hin); case_decide; try done.

(** The test on the dict, once [H] says how it goes. *)
Ltac look_up H :=
  rewrite bind_run; unfold get_data;
  cbn [data stdin stdout clipboard files writes with_stdin with_stdout];
  rewrite H.

(** The two sides are the same state, field by field. *)
Ltac same_state :=
  unfold clipboard_copy; cbv beta iota;
  try print_message;
  unfold with_clipboard, with_file, with_data,
    with_stdout, with_stdin;
  cbn [data stdin stdout clipboard files writes];
  unfold KEY_PROMPT, overwrite_prompt;
  by rewrite <- ?app_assoc.

(** What the end of the save command does. *)
Lemma store_clipboard_run (key : text) (st : state) :
  store_clipboard key st =
  (Ok tt,
   mkState (Dict.set key (clipboard st) (data st)) (stdin st)
     (stdout st ++ lit "Data saved successfully." ++ [NL]) (clipboard st)
     (<[SAVED_DATA := saved (Dict.set key (clipboard st) (data st))]> (files st))
     (writes st ++ [(SAVED_DATA, saved (Dict.set key (clipboard st) (data st)))])).
Proof.
  unfold store_clipboard, bind, clipboard_paste, setitem, get_data.
  rewrite save_data_run. print_message. reflexivity.
Qed.

(** ** The runs of [process_save_command] *)

Lemma save_run_eof (st : state) :
  stdin st = [] ->
  process_save_command st =
  (Raise EOFError, with_stdout (stdout st ++ KEY_PROMPT) st).
Proof.
  intros Hin. unfold process_save_command.
  by rewrite bind_run, (input_eof _ _ Hin).
Qed.

Lemma save_run_empty_key (st : state) (rest : list text) :
  stdin st = [] :: rest ->
  process_save_command st =
  (Ok tt,
   mkState (data st) rest
     (stdout st ++ KEY_PROMPT ++ EMPTY_KEY_MSG ++ [NL])
     (clipboard st) (files st) (writes st)).
Proof.
  intros Hin. unfold process_save_command. ask_key Hin. same_state.
Qed.

Lemma save_run_eof_at_overwrite (st : state) (key : text) :
  stdin st = [key] -> key <> [] -> is_Some (Dict.get key (data st)) ->
  process_save_command st =
  (Raise EOFError,
   mkState (data st) [] (stdout st ++ KEY_PROMPT ++ overwrite_prompt key)
     (clipboard st) (files st) (writes st)).
Proof.
  intros Hin Hkey Hmem. unfold process_save_command. ask_key Hin.
  apply mem_true in Hmem. look_up Hmem.
  rewrite bind_run. erewrite input_eof by reflexivity. same_state.
Qed.

Lemma save_run_canceled (st : state) (key answer : text) (rest : list text) :
  stdin st = key :: answer :: rest -> key <> [] ->
  is_Some (Dict.get key (data st)) -> lower answer <> lit "y" ->
  process_save_command st =
  (Ok tt,
   mkState (data st) rest
     (stdout st ++ KEY_PROMPT ++ overwrite_prompt key
      ++ lit "Save operation canceled." ++ [NL])
     (clipboard st) (files st) (writes st)).
Proof.
  intros Hin Hkey Hmem Hans. unfold process_save_command. ask_key Hin.
  apply mem_true in Hmem. look_up Hmem.
  rewrite bind_run. erewrite input_line by reflexivity.
  case_decide; [|done]. same_state.
Qed.

Lemma save_run_overwrite (st : state) (key answer : text) (rest : list text) :
  stdin st = key :: answer :: rest -> key <> [] ->
  is_Some (Dict.get key (data st)) -> lower answer = lit "y" ->
  process_save_command st =
  (Ok tt,
   mkState (Dict.set key (clipboard st) (data st)) rest
     (stdout st ++ KEY_PROMPT ++ overwrite_prompt key
      ++ lit "Data saved successfully." ++ [NL])
     (clipboard st)
     (<[SAVED_DATA := saved (Dict.set key (clipboard st) (data st))]> (files st))
     (writes st ++ [(SAVED_DATA, saved (Dict.set key (clipboard st) (data st)))])).
Proof.
  intros Hin Hkey Hmem Hans. unfold process_save_command. ask_key Hin.
  apply mem_true in Hmem. look_up Hmem.
  rewrite bind_run. erewrite input_line by reflexivity.
  case_decide; [done|]. rewrite store_clipboard_run. same_state.
Qed.

Lemma save_run_new_key (st : state) (key : text) (rest : list text) :
  stdin st = key :: rest -> key <> [] -> Dict.get key (data st) = None ->
  process_save_command st =
  (Ok tt,
   mkState (Dict.set key (clipboard st) (data st)) rest
     (stdout st ++ KEY_PROMPT ++ lit "Data saved successfully." ++ [NL])
     (clipboard st)
     (<[SAVED_DATA := saved (Dict.set key (clipboard st) (data st))]> (files st))
     (writes st ++ [(SAVED_DATA, saved (Dict.set key (clipboard st) (data st)))])).
Proof.
  intros Hin Hkey Hmem. unfold process_save_command. ask_key Hin.
  apply mem_false in Hmem. look_up Hmem.
  rewrite store_clipboard_run. same_state.
Qed.

(** ** The runs of [process_load_command] *)

Lemma load_run_eof (st : state) :
  stdin st = [] ->
  process_load_command st =
  (Raise EOFError, with_stdout (stdout st ++ KEY_PROMPT) st).
Proof.
  intros Hin. unfold process_load_command.
  by rewrite bind_run, (input_eof _ _ Hin).
Qed.

Lemma load_run_empty_key (st : state) (rest : list text) :
  stdin st = [] :: rest ->
  process_load_command st =
  (Ok tt,
   mkState (data st) rest
     (stdout st ++ KEY_PROMPT ++ EMPTY_KEY_MSG ++ [NL])
     (clipboard st) (files st) (writes st)).
Proof.
  intros Hin. unfold process_load_command. ask_key Hin. same_state.
Qed.

Lemma load_run_present (st : state) (key v : text) (rest : list text) :
  stdin st = key :: rest -> key <> [] -> Dict.get key (data st) = Some v ->
  process_load_command st =
  (Ok tt,
   mkState (data st) rest
     (stdout st ++ KEY_PROMPT ++ lit "Data has been copied to clipboard." ++ [NL])
     v (files st) (writes st)).
Proof.
  intros Hin Hkey Hget. unfold process_load_command. ask_key Hin.
  look_up Hget. rewrite bind_run. same_state.
Qed.

Lemma load_run_absent (st : state) (key : text) (rest : list text) :
  stdin st = key :: rest -> key <> [] -> Dict.get key (data st) = None ->
  process_load_command st =
  (Ok tt,
   mkState (data st) rest
     (stdout st ++ KEY_PROMPT ++ lit "Key does not exist." ++ [NL])
     (clipboard st) (files st) (writes st)).
Proof.
  intros Hin Hkey Hget. unfold process_load_command. ask_key Hin.
  look_up Hget. same_state.
Qed.

(** ** The runs of [process_delete_command] *)

Lemma delete_run_eof (st : state) :
  stdin st = [] ->
  process_delete_command st =
  (Raise EOFError, with_stdout (stdout st ++ KEY_PROMPT) st).
Proof.
  intros Hin. unfold process_delete_command.
  by rewrite bind_run, (input_eof _ _ Hin).
Qed.

Lemma delete_run_empty_key (st : state) (rest : list text) :
  stdin st = [] :: rest ->
  process_delete_command st =
  (Ok tt,
   mkState (data st) rest
     (stdout st ++ KEY_PROMPT ++ EMPTY_KEY_MSG ++ [NL])
     (clipboard st) (files st) (writes st)).
Proof.
  intros Hin. unfold process_delete_command. ask_key Hin. same_state.
Qed.

Lemma delete_run_present (st : state) (key : text) (rest : list text) :
  stdin st = key :: rest -> key <> [] -> is_Some (Dict.get key (data st)) ->
  process_delete_command st =
  (Ok tt,
   mkState (Dict.del key (data st)) rest
     (stdout st ++ KEY_PROMPT ++ lit "Entry deleted successfully." ++ [NL])
     (clipboard st)
     (<[SAVED_DATA := saved (Dict.del key (data st))]> (files st))
     (writes st ++ [(SAVED_DATA, saved (Dict.del key (data st)))])).
Proof.
  intros Hin Hkey Hmem. unfold process_delete_command. ask_key Hin.
  apply mem_true in Hmem. look_up Hmem.
  unfold bind, delitem. rewrite save_data_run. same_state.
Qed.

Lemma delete_run_absent (st : state) (key : text) (rest : list text) :
  stdin st = key :: rest -> key <> [] -> Dict.get key (data st) = None ->
  process_delete_command st =
  (Ok tt,
   mkState (data st) rest
     (stdout st ++ KEY_PROMPT ++ lit "Key does not exist." ++ [NL])
     (clipboard st) (files st) (writes st)).
Proof.
  intros Hin Hkey Hget. unfold process_delete_command. ask_key Hin.
  apply mem_false in Hget. look_up Hget. same_state.
Qed.

(** ** What [print] takes *)

Lemma encode_cp_scalar (c : N) :
  match Codec.utf8_encode_cp c with Some _ => true | None => false end
  = is_scalar c.
Proof.
  unfold Codec.utf8_encode_cp, is_scalar.
  repeat match goal with
         | |- context [?a <? ?b] => destruct (N.ltb_spec a b)
         | |- context [?a <=? ?b] => destruct (N.leb_spec a b)
         end; cbn; try reflexivity; lia.
Qed.

(** The console takes the plain texts and no others. *)
Lemma console_takes_plain (s : text) : console_takes s = plain s.
Proof.
  unfold console_takes, Codec.write_text.
  induction s as [|c s IH]; [reflexivity|].
  cbn [Codec.utf8_encode plain forallb]. fold (plain s).
  rewrite <- encode_cp_scalar, <- IH.
  destruct (Codec.utf8_encode_cp c) as [x|]; [|reflexivity].
  by destruct (Codec.utf8_encode s).
Qed.

Lemma plain_app (a b : text) : plain (a ++ b) = plain a && plain b.
Proof. unfold plain. apply forallb_app. Qed.

(** The line of an item can be printed when its key and its value are
    plain. *)
Lemma console_takes_line (kv : text * text) :
  console_takes (list_line kv) = plain kv.1 && plain kv.2.
Proof.
  rewrite console_takes_plain. unfold list_line. rewrite !plain_app.
  change (plain (lit "Key: ")) with true.
  change (plain [9]) with true.
  change (plain (lit "Value: ")) with true.
  reflexivity.
Qed.



Lemma plain_prefix_all (items : list (text * text)) :
  plain_store items = true -> plain_prefix items = items.
Proof.
  induction items as [|kv items IH]; [done|].
  cbn [plain_store forallb plain_prefix]. intros H.
  destruct (andb_prop _ _ H) as [H1 H2].
  rewrite H1. by rewrite IH.
Qed.

(** ** The runs of [process_list_command] *)

(** The loop of the list command: it prints the lines of the items in
    their order and stops, with [UnicodeEncodeError], at the first line
    the console cannot take. *)
Lemma print_items_run (items : list (text * text)) :
  forall st,
  print_items items st =
  (if plain_store items then Ok tt else Raise UnicodeEncodeError,
   mkState (data st) (stdin st) (stdout st ++ list_output (plain_prefix items))
     (clipboard st) (files st) (writes st)).
Proof.
  induction items as [|kv items IH]; intros st.
  - cbn [print_items plain_store forallb plain_prefix list_output flat_map].
    rewrite app_nil_r. by destruct st.
  - cbn [print_items plain_store forallb plain_prefix]. rewrite bind_run.
    destruct (plain kv.1 && plain kv.2) eqn:E.
    + rewrite print_takes by (by rewrite console_takes_line).
      rewrite IH. unfold with_stdout.
      cbn [data stdin stdout clipboard files writes andb].
      unfold list_output. cbn [flat_map]. by rewrite <- ?app_assoc.
    + rewrite print_refused by (by rewrite console_takes_line).
      cbn [andb list_output flat_map]. rewrite app_nil_r. by destruct st.
Qed.

Lemma list_run (st : state) :
  process_list_command st =
  (if plain_store (data st) then Ok tt else Raise UnicodeEncodeError,
   mkState (data st) (stdin st)
     (stdout st ++ list_output (plain_prefix (data st)))
     (clipboard st) (files st) (writes st)).
Proof.
  unfold process_list_command. rewrite bind_run. unfold get_data.
  apply print_items_run.
Qed.

(** The list command on a plain dict. *)
Lemma list_run_plain (st : state) :
  plain_store (data st) = true ->
  process_list_command st =
  (Ok tt,
   mkState (data st) (stdin st) (stdout st ++ list_output (data st))
     (clipboard st) (files st) (writes st)).
Proof. intros H. by rewrite list_run, H, plain_prefix_all. Qed.

(** ** The runs of [load_data] *)

(** The body of [load_data] with every layer in sight. *)
Ltac open_load_data :=
  unfold load_data, try_except, bind, open_read, json_load, bind, read.

Lemma load_data_missing (filepath : text) (st : state) :
  files st !! filepath = None ->
  load_data filepath st = (Ok (JObj []), st).
Proof. intros Hf. open_load_data. by rewrite Hf. Qed.

Lemma load_data_undecodable (filepath : text) (bs : Codec.bytes) (st : state) :
  files st !! filepath = Some bs -> Codec.read_text bs = None ->
  load_data filepath st = (Raise UnicodeDecodeError, st).
Proof. intros Hf Hr. open_load_data. by rewrite Hf, Hr. Qed.

Lemma load_data_invalid (filepath : text) (bs : Codec.bytes) (t : text) (st : state) :
  files st !! filepath = Some bs -> Codec.read_text bs = Some t ->
  loads t = None ->
  load_data filepath st =
  (Ok (JObj []),
   with_stdout (stdout st ++ lit "Error: Invalid data format in the file." ++ [NL]) st).
Proof.
  intros Hf Hr Hl. open_load_data.
  rewrite Hf, Hr. unfold ret. cbv beta iota. rewrite Hl.
  unfold raise. cbv beta iota. by print_message.
Qed.

Lemma load_data_valid (filepath : text) (bs : Codec.bytes) (t : text) (v : json)
    (st : state) :
  files st !! filepath = Some bs -> Codec.read_text bs = Some t ->
  loads t = Some v ->
  load_data filepath st = (Ok v, st).
Proof.
  intros Hf Hr Hl. open_load_data.
  rewrite Hf, Hr. unfold ret. cbv beta iota. by rewrite Hl.
Qed.

(** A data file that holds what [save_data] writes for the dict of the
    state is read back as that dict, when the dict has no surrogate
    pairs. *)
Lemma reads_back_saved (st : state) :
  Dict.wf (data st) -> store_ok (data st) ->
  files st !! SAVED_DATA = Some (saved (data st)) ->
  reads_back st.
Proof.
  intros Hwf Hok Hf. unfold reads_back.
  apply (load_data_valid _ (saved (data st)) (dumps (data st))); [done | |].
  - apply read_text_saved.
  - by apply loads_dumps.
Qed.

(** In this model, which leaves the limits of the interpreter out,
    [load_data] returns whatever the text of the file: the only exception
    that leaves it comes from bytes that are no text. *)
Lemma load_data_text_returns (filepath : text) (bs : Codec.bytes) (t : text)
    (st : state) :
  files st !! filepath = Some bs -> Codec.read_text bs = Some t ->
  exists v st', load_data filepath st = (Ok v, st').
Proof.
  intros Hf Hr. destruct (loads t) as [v|] eqn:Hl.
  - exists v, st. by apply (load_data_valid _ bs t).
  - eexists _, _. by apply (load_data_invalid _ bs t).
Qed.

End MainFacts.

Import Json Sys Main DictFacts CodecFacts JsonFacts MainFacts.
Open Scope sys_scope.

(* ===================================================================== *)
(** * Persistence *)
(* ===================================================================== *)

(** C1, as the claim states it, fails: a key made of the two code points
    U+D83D U+DE00 is written as the two escapes [\ud83d\ude00] and
    read back as the one code point U+1F600, so the dict that [load_data]
    returns differs from the dict that [save_data] was given. *)
Lemma save_load_surrogate_pair_counterexample :
  Dict.wf surrogate_store /\
  Forall (fun kv => valid_text kv.1 /\ valid_text kv.2) surrogate_store /\
  result (save_data SAVED_DATA surrogate_store ;; load_data SAVED_DATA) blank
  = Ok (JObj [([0x1F600], JStr (lit "v"))]) /\
  result (save_data SAVED_DATA surrogate_store ;; load_data SAVED_DATA) blank
  <> Ok (of_store surrogate_store).
Proof.
  assert (R : result (save_data SAVED_DATA surrogate_store ;; load_data SAVED_DATA) blank
              = Ok (JObj [([0x1F600], JStr (lit "v"))])).
  { unfold result. rewrite bind_run, save_data_run.
    erewrite load_data_valid; [reflexivity | | |].
    - cbn [files with_file]. apply lookup_insert_eq.
    - apply read_text_saved.
    - vm_compute. reflexivity. }
  split; [|split; [|split]].
  - unfold Dict.wf. apply NoDup_singleton.
  - apply Forall_cons_2; [|apply Forall_nil_2]. split.
    + repeat (apply Forall_cons_2; [unfold is_codepoint; lia|]). apply Forall_nil_2.
    + repeat (apply Forall_cons_2; [unfold is_codepoint; vm_compute; reflexivity|]).
      apply Forall_nil_2.
  - exact R.
  - rewrite R. vm_compute. intros H. discriminate H.
Qed.

(** C1 (amended): for every dict of strings (sequences of code points) in
    which no string has a high surrogate right before a low one,
    [save_data] followed by [load_data] of the same path returns a dict
    equal to the one saved, key for key and value for value, in the same
    order, and prints nothing. *)
Theorem save_load_roundtrip (filepath : text) (d : store) (st : state) :
  Dict.wf d -> store_ok d ->
  (save_data filepath d ;; load_data filepath) st
  = (Ok (of_store d), with_file filepath (saved d) st).
Proof.
  intros Hwf Hok. rewrite bind_run, save_data_run.
  apply (load_data_valid _ (saved d) (dumps d)).
  - cbn [files with_file]. apply lookup_insert_eq.
  - apply read_text_saved.
  - by apply loads_dumps.
Qed.

(** Saving twice changes nothing: the second write puts the same bytes. *)
Lemma save_save_load_roundtrip (filepath : text) (d : store) (st : state) :
  Dict.wf d -> store_ok d ->
  result (save_data filepath d ;; save_data filepath d ;; load_data filepath) st
  = Ok (of_store d).
Proof.
  intros Hwf Hok. unfold result. rewrite bind_run, save_data_run.
  rewrite bind_run, save_data_run.
  erewrite (load_data_valid _ (saved d) (dumps d)); [reflexivity | | |].
  - cbn [files with_file]. apply lookup_insert_eq.
  - apply read_text_saved.
  - by apply loads_dumps.
Qed.

Lemma sample_store_wf : Dict.wf sample_store.
Proof.
  unfold Dict.wf. apply NoDup_cons_2.
  - intros H. apply list_elem_of_singleton in H. discriminate H.
  - apply NoDup_singleton.
Defined.

Lemma sample_store_ok : store_ok sample_store.
Proof.
  unfold store_ok, text_ok, valid_text, is_codepoint.
  repeat (apply Forall_cons_2 || apply Forall_nil_2 || split
          || (vm_compute; reflexivity)).
Defined.

Lemma save_load_roundtrip_witness :
  (save_data SAVED_DATA sample_store ;; load_data SAVED_DATA) blank
  = (Ok (of_store sample_store), with_file SAVED_DATA (saved sample_store) blank).
Proof.
  exact (save_load_roundtrip SAVED_DATA sample_store blank
           sample_store_wf sample_store_ok).
Defined.

(** C2 at a file that is not text: the byte 0xFF is no UTF-8, reading the
    file raises [UnicodeDecodeError], and [load_data], which takes only
    [FileNotFoundError] and [JSONDecodeError], lets it go on to the caller:
    no message, no empty dict. *)
Theorem load_data_undecodable_file_raises :
  files corrupt !! SAVED_DATA = Some [Byte.xff] /\
  Codec.read_text [Byte.xff] = None /\
  load_data SAVED_DATA corrupt = (Raise UnicodeDecodeError, corrupt).
Proof.
  assert (F : files corrupt !! SAVED_DATA = Some [Byte.xff])
    by apply lookup_singleton_eq.
  assert (R : Codec.read_text [Byte.xff] = None) by reflexivity.
  split; [exact F | split; [exact R|]].
  exact (load_data_undecodable _ _ _ F R).
Qed.

(* ===================================================================== *)
(** * The save command *)
(* ===================================================================== *)

(** C3: when the key typed at the save command is empty, the command
    returns after the message [Error: Key cannot be empty.]; the dict is as
    it was and no file has been written. *)
Theorem save_empty_key_aborts (st : state) (rest : list text) :
  stdin st = [] :: rest ->
  let st' := exec process_save_command st in
  result process_save_command st = Ok tt /\
  untouched st st' /\
  clipboard st' = clipboard st /\
  printed st st' (KEY_PROMPT ++ EMPTY_KEY_MSG ++ [NL]).
Proof.
  intros Hin. unfold result, exec. rewrite (save_run_empty_key _ _ Hin).
  repeat split.
Qed.

Lemma save_empty_key_aborts_witness :
  let st := mkState sample_store [[]] [] (lit "text") ∅ [] in
  let st' := exec process_save_command st in
  result process_save_command st = Ok tt /\
  untouched st st' /\
  clipboard st' = clipboard st /\
  printed st st' (KEY_PROMPT ++ EMPTY_KEY_MSG ++ [NL]).
Proof.
  exact (save_empty_key_aborts
           (mkState sample_store [[]] [] (lit "text") ∅ []) [] eq_refl).
Defined.

(** C4: when the key typed at the save command is in the dict and the
    answer to the overwrite question is not a confirmation (its lower-case
    form is not ["y"], or there is no answer at all), the value under the
    key is as it was, as is the whole dict, and no file has been written.
    An answer that is given and declines ends the command with the message
    [Save operation canceled.]. *)
Theorem save_declined_keeps_value (st : state) (key : text) (ins : list text) :
  stdin st = key :: ins ->
  is_Some (Dict.get key (data st)) ->
  (forall answer rest, ins = answer :: rest -> lower answer <> lit "y") ->
  let st' := exec process_save_command st in
  Dict.get key (data st') = Dict.get key (data st) /\
  untouched st st' /\
  (forall answer rest, ins = answer :: rest -> key <> [] ->
     result process_save_command st = Ok tt /\
     printed st st' (KEY_PROMPT ++ overwrite_prompt key
                     ++ lit "Save operation canceled." ++ [NL])).
Proof.
  intros Hin Hmem Hans. unfold result, exec.
  destruct (decide (key = [])) as [->|Hkey].
  { rewrite (save_run_empty_key _ _ Hin).
    split; [done|]. split; [by repeat split|]. intros; done. }
  destruct ins as [|answer rest].
  - rewrite (save_run_eof_at_overwrite _ _ Hin Hkey Hmem).
    split; [done|]. split; [by repeat split|]. intros; done.
  - rewrite (save_run_canceled _ _ _ _ Hin Hkey Hmem (Hans _ _ eq_refl)).
    split; [done|]. split; [by repeat split|].
    intros answer' rest' E _. injection E as <- <-. by split.
Qed.

Lemma sample_has_greeting : is_Some (Dict.get (lit "greeting") sample_store).
Proof. eexists. reflexivity. Defined.

Lemma no_is_not_y : lower (lit "no") <> lit "y".
Proof. intros H. discriminate H. Defined.

Lemma save_declined_keeps_value_witness :
  let st := mkState sample_store [lit "greeting"; lit "no"] [] (lit "text") ∅ [] in
  let st' := exec process_save_command st in
  Dict.get (lit "greeting") (data st') = Dict.get (lit "greeting") (data st) /\
  untouched st st'.
Proof.
  intros st st'.
  refine (let H := save_declined_keeps_value st (lit "greeting") [lit "no"]
                     eq_refl sample_has_greeting _ in
          conj (proj1 H) (proj1 (proj2 H))).
  intros answer rest E. injection E as <- _. exact no_is_not_y.
Defined.

(** C5, as the claim states it, fails where it says that the resulting
    store is persisted: for a dict with a key made of the two code points
    U+D83D U+DE00, the save command with the new key [k] stores the
    clipboard text and writes the data file, but what [load_data] then
    reads from that file has the one code point U+1F600 in the place of
    that key: it is not the dict the command ended with. *)
Lemma save_surrogate_pair_counterexample :
  let st := mkState surrogate_store [lit "k"] [] (lit "text") ∅ [] in
  let st' := exec process_save_command st in
  Dict.wf (data st) /\
  result process_save_command st = Ok tt /\
  data st' = [([0xD83D; 0xDE00], lit "v"); (lit "k", lit "text")] /\
  writes st' = [(SAVED_DATA, saved (data st'))] /\
  result (load_data SAVED_DATA) st'
  = Ok (JObj [([0x1F600], JStr (lit "v")); (lit "k", JStr (lit "text"))]) /\
  result (load_data SAVED_DATA) st' <> Ok (of_store (data st')).
Proof.
  intros st st'.
  assert (Hk : lit "k" <> []) by (intros E; discriminate E).
  set (d := [([0xD83D; 0xDE00], lit "v"); (lit "k", lit "text")] : store).
  assert (R : process_save_command st =
              (Ok tt,
               mkState d []
                 (KEY_PROMPT ++ lit "Data saved successfully." ++ [NL])
                 (lit "text")
                 (<[SAVED_DATA := saved d]> ∅)
                 [(SAVED_DATA, saved d)]))
    by exact (save_run_new_key st (lit "k") [] eq_refl Hk eq_refl).
  assert (L : result (load_data SAVED_DATA) st'
              = Ok (JObj [([0x1F600], JStr (lit "v"));
                          (lit "k", JStr (lit "text"))])).
  { subst st'. unfold result, exec. rewrite R. cbn [snd].
    erewrite load_data_valid; [reflexivity | | |].
    - cbn [files]. apply lookup_insert_eq.
    - apply read_text_saved.
    - vm_compute. reflexivity. }
  split; [unfold Dict.wf; apply NoDup_singleton|].
  split; [by unfold result; rewrite R|].
  split; [by subst st'; unfold exec; rewrite R|].
  split; [by subst st'; unfold exec; rewrite R|].
  split; [exact L|].
  rewrite L. subst st'. unfold exec. rewrite R. cbn [snd data].
  intros H. discriminate H.
Qed.

(** C5 (amended): when the save command goes on with a key that is not
    empty (the key is new, or it is in the dict and the overwrite is
    confirmed), the dict ends with the clipboard text under that key and
    with every other key as it was, and the data file has been written
    with the JSON text of that dict; whenever no key and no value of that
    dict holds a high surrogate right before a low one, [load_data] reads
    the very same dict back from the data file. *)
Theorem save_stores_clipboard (st : state) (key : text) (ins rest : list text) :
  stdin st = key :: ins -> key <> [] ->
  (Dict.get key (data st) = None /\ ins = rest) \/
  (is_Some (Dict.get key (data st)) /\
   exists answer, ins = answer :: rest /\ lower answer = lit "y") ->
  let st' := exec process_save_command st in
  result process_save_command st = Ok tt /\
  data st' = Dict.set key (clipboard st) (data st) /\
  Dict.get key (data st') = Some (clipboard st) /\
  (forall k, k <> key -> Dict.get k (data st') = Dict.get k (data st)) /\
  persisted st st' /\
  Codec.read_text (saved (data st')) = Some (dumps (data st')) /\
  (Dict.wf (data st) -> store_ok (data st') -> reads_back st') /\
  clipboard st' = clipboard st /\
  stdin st' = rest.
Proof.
  intros Hin Hkey Hcase. unfold result, exec.
  assert (G : Dict.get key (Dict.set key (clipboard st) (data st))
              = Some (clipboard st)).
  { rewrite get_set. by destruct (decide (key = key)). }
  assert (O : forall k, k <> key ->
              Dict.get k (Dict.set key (clipboard st) (data st))
              = Dict.get k (data st)).
  { intros k Hk. rewrite get_set. by destruct (decide (k = key)). }
  assert (B : forall out inp,
              Dict.wf (data st) ->
              store_ok (Dict.set key (clipboard st) (data st)) ->
              reads_back
                (mkState (Dict.set key (clipboard st) (data st)) inp out
                   (clipboard st)
                   (<[SAVED_DATA := saved (Dict.set key (clipboard st) (data st))]>
                      (files st))
                   (writes st
                    ++ [(SAVED_DATA, saved (Dict.set key (clipboard st) (data st)))]))).
  { intros out inp Hwf Hok. apply reads_back_saved; cbn [data files].
    - by apply wf_set.
    - exact Hok.
    - apply lookup_insert_eq. }
  destruct Hcase as [[Hnone ->] | [Hmem (answer & -> & Hy)]].
  - rewrite (save_run_new_key _ _ _ Hin Hkey Hnone).
    cbn [fst snd data clipboard stdin].
    split; [done|]. split; [done|]. split; [exact G|]. split; [exact O|].
    split; [by split|]. split; [apply read_text_saved|].
    split; [apply B | by split].
  - rewrite (save_run_overwrite _ _ _ _ Hin Hkey Hmem Hy).
    cbn [fst snd data clipboard stdin].
    split; [done|]. split; [done|]. split; [exact G|]. split; [exact O|].
    split; [by split|]. split; [apply read_text_saved|].
    split; [apply B | by split].
Qed.

Lemma save_stores_clipboard_witness :
  let st := mkState sample_store [lit "greeting"; lit "Y"; lit "later"] []
              (lit "text") ∅ [] in
  let st' := exec process_save_command st in
  Dict.get (lit "greeting") (data st') = Some (lit "text") /\
  stdin st' = [lit "later"] /\
  reads_back st'.
Proof.
  intros st st'.
  assert (Hgo : (Dict.get (lit "greeting") (data st) = None /\
                 [lit "Y"; lit "later"] = [lit "later"]) \/
                (is_Some (Dict.get (lit "greeting") (data st)) /\
                 exists answer, [lit "Y"; lit "later"] = answer :: [lit "later"] /\
                                lower answer = lit "y")).
  { right. split; [exact sample_has_greeting|].
    exists (lit "Y"). split; reflexivity. }
  assert (Hk : lit "greeting" <> []) by (intros E; discriminate E).
  pose (H := save_stores_clipboard st (lit "greeting")
               [lit "Y"; lit "later"] [lit "later"] eq_refl Hk Hgo).
  assert (Hok : store_ok (data st')).
  { subst st'. rewrite (proj1 (proj2 H)).
    unfold store_ok, text_ok, valid_text, is_codepoint.
    repeat (apply Forall_cons_2 || apply Forall_nil_2 || split
            || (vm_compute; reflexivity)). }
  exact (conj (proj1 (proj2 (proj2 H)))
           (conj (proj2 (proj2 (proj2 (proj2 (proj2 (proj2 (proj2 (proj2 H))))))))
              (proj1 (proj2 (proj2 (proj2 (proj2 (proj2 (proj2 H))))))
                 sample_store_wf Hok))).
Defined.

(** C9: at the overwrite question an answer confirms exactly when its
    lower-case form is ["y"], and that is so for ["y"] and ["Y"] and for no
    other answer.  A confirming answer makes the command store the
    clipboard text and write the file; any other answer ends it with the
    dict as it was and nothing written. *)
Theorem overwrite_confirmed_iff_y (st : state) (key answer : text) (rest : list text) :
  stdin st = key :: answer :: rest -> key <> [] ->
  is_Some (Dict.get key (data st)) ->
  let st' := exec process_save_command st in
  (lower answer = lit "y" <-> answer = lit "y" \/ answer = lit "Y") /\
  (answer = lit "y" \/ answer = lit "Y" ->
     data st' = Dict.set key (clipboard st) (data st) /\ persisted st st') /\
  (~ (answer = lit "y" \/ answer = lit "Y") ->
     untouched st st' /\
     printed st st' (KEY_PROMPT ++ overwrite_prompt key
                     ++ lit "Save operation canceled." ++ [NL])).
Proof.
  intros Hin Hkey Hmem. unfold exec.
  split; [apply TextFacts.lower_is_y|]. split.
  - intros Hy. apply TextFacts.lower_is_y in Hy.
    rewrite (save_run_overwrite _ _ _ _ Hin Hkey Hmem Hy). by repeat split.
  - intros Hn. rewrite <- TextFacts.lower_is_y in Hn.
    rewrite (save_run_canceled _ _ _ _ Hin Hkey Hmem Hn). by repeat split.
Qed.

Lemma greeting_not_empty : lit "greeting" <> [].
Proof. intros E. discriminate E. Defined.

Lemma yes_is_not_y : ~ (lit "yes" = lit "y" \/ lit "yes" = lit "Y").
Proof. intros [E|E]; discriminate E. Defined.

Lemma overwrite_confirmed_iff_y_witness :
  let st := mkState sample_store [lit "greeting"; lit "yes"] [] (lit "text") ∅ [] in
  untouched st (exec process_save_command st).
Proof.
  intros st.
  exact (proj1 (proj2 (proj2 (overwrite_confirmed_iff_y st (lit "greeting")
                                (lit "yes") [] eq_refl greeting_not_empty
                                sample_has_greeting))
                 yes_is_not_y)).
Defined.

(* ===================================================================== *)
(** * The load command *)
(* ===================================================================== *)

(** C6: for a key that is not empty the load command puts the value under
    the key on the clipboard when the key is in the dict; when it is not,
    it prints [Key does not exist.] and the clipboard is as it was.  In
    both cases the dict is as it was (and no file has been written). *)
Theorem load_copies_or_reports (st : state) (key : text) (rest : list text) :
  stdin st = key :: rest -> key <> [] ->
  let st' := exec process_load_command st in
  result process_load_command st = Ok tt /\
  untouched st st' /\
  match Dict.get key (data st) with
  | Some v =>
      clipboard st' = v /\
      printed st st' (KEY_PROMPT ++ lit "Data has been copied to clipboard." ++ [NL])
  | None =>
      clipboard st' = clipboard st /\
      printed st st' (KEY_PROMPT ++ lit "Key does not exist." ++ [NL])
  end.
Proof.
  intros Hin Hkey. unfold result, exec.
  destruct (Dict.get key (data st)) as [v|] eqn:Hget.
  - rewrite (load_run_present _ _ _ _ Hin Hkey Hget). by repeat split.
  - rewrite (load_run_absent _ _ _ Hin Hkey Hget). by repeat split.
Qed.

Lemma load_copies_or_reports_witness :
  let st := mkState sample_store [lit "smile"] [] (lit "text") ∅ [] in
  clipboard (exec process_load_command st) = [0x1F600; 0xE9].
Proof.
  intros st.
  assert (Hk : lit "smile" <> []) by (intros E; discriminate E).
  exact (proj1 (proj2 (proj2 (load_copies_or_reports st (lit "smile") []
                                 eq_refl Hk)))).
Defined.

(* ===================================================================== *)
(** * The delete command *)
(* ===================================================================== *)

(** C7, as the claim states it, fails where it says that the resulting
    store is persisted: from a dict with a key made of the two code points
    U+D83D U+DE00 and the key [k], the delete command takes [k] out and
    writes the data file, but what [load_data] then reads from that file
    has the one code point U+1F600 as its key: it is not the dict the
    command ended with. *)
Lemma delete_surrogate_pair_counterexample :
  let st := mkState [([0xD83D; 0xDE00], lit "v"); (lit "k", lit "w")]
              [lit "k"] [] [] ∅ [] in
  let st' := exec process_delete_command st in
  Dict.wf (data st) /\
  result process_delete_command st = Ok tt /\
  data st' = surrogate_store /\
  writes st' = [(SAVED_DATA, saved (data st'))] /\
  result (load_data SAVED_DATA) st' = Ok (JObj [([0x1F600], JStr (lit "v"))]) /\
  result (load_data SAVED_DATA) st' <> Ok (of_store (data st')).
Proof.
  intros st st'.
  assert (Hk : lit "k" <> []) by (intros E; discriminate E).
  assert (Hm : is_Some (Dict.get (lit "k") (data st))) by (by eexists).
  assert (R : process_delete_command st =
              (Ok tt,
               mkState surrogate_store []
                 (KEY_PROMPT ++ lit "Entry deleted successfully." ++ [NL]) []
                 (<[SAVED_DATA := saved surrogate_store]> ∅)
                 [(SAVED_DATA, saved surrogate_store)]))
    by exact (delete_run_present st (lit "k") [] eq_refl Hk Hm).
  assert (L : result (load_data SAVED_DATA) st'
              = Ok (JObj [([0x1F600], JStr (lit "v"))])).
  { subst st'. unfold result, exec. rewrite R. cbn [snd].
    erewrite load_data_valid; [reflexivity | | |].
    - cbn [files]. apply lookup_insert_eq.
    - apply read_text_saved.
    - vm_compute. reflexivity. }
  split.
  { unfold Dict.wf. apply NoDup_cons_2; [|apply NoDup_singleton].
    intros H. apply list_elem_of_singleton in H. discriminate H. }
  split; [by unfold result; rewrite R|].
  split; [by subst st'; unfold exec; rewrite R|].
  split; [by subst st'; unfold exec; rewrite R|].
  split; [exact L|].
  rewrite L. subst st'. unfold exec. rewrite R. cbn [snd data].
  intros H. discriminate H.
Qed.

(** C7 (amended): for a key that is not empty the delete command, when
    the key is in the dict, takes that key and no other out of it and
    writes the data file with the JSON text of the dict that is left;
    whenever no key and no value of that dict holds a high surrogate right
    before a low one, [load_data] reads the very same dict back from the
    data file.  When the key is not in the dict, the dict is as it was, no
    file has been written, and the command prints [Key does not exist.]. *)
Theorem delete_removes_or_reports (st : state) (key : text) (rest : list text) :
  Dict.wf (data st) ->
  stdin st = key :: rest -> key <> [] ->
  let st' := exec process_delete_command st in
  result process_delete_command st = Ok tt /\
  match Dict.get key (data st) with
  | Some _ =>
      data st' = Dict.del key (data st) /\
      Dict.get key (data st') = None /\
      (forall k, k <> key -> Dict.get k (data st') = Dict.get k (data st)) /\
      length (data st) = S (length (data st')) /\
      persisted st st' /\
      Codec.read_text (saved (data st')) = Some (dumps (data st')) /\
      (store_ok (data st') -> reads_back st') /\
      printed st st' (KEY_PROMPT ++ lit "Entry deleted successfully." ++ [NL])
  | None =>
      untouched st st' /\
      printed st st' (KEY_PROMPT ++ lit "Key does not exist." ++ [NL])
  end.
Proof.
  intros Hwf Hin Hkey. unfold result, exec.
  destruct (Dict.get key (data st)) as [v|] eqn:Hget.
  - assert (Hmem : is_Some (Dict.get key (data st))) by (by eexists).
    rewrite (delete_run_present _ _ _ Hin Hkey Hmem). cbn [fst snd data].
    split; [done|]. split; [done|]. split.
    { rewrite get_del by done. by destruct (decide (key = key)). }
    split.
    { intros k Hk. rewrite get_del by done. by destruct (decide (k = key)). }
    split; [by apply length_del|]. split; [by split|].
    split; [apply read_text_saved|]. split; [|done].
    intros Hok. apply reads_back_saved; cbn [data files].
    + by apply wf_del.
    + exact Hok.
    + apply lookup_insert_eq.
  - rewrite (delete_run_absent _ _ _ Hin Hkey Hget). by repeat split.
Qed.

Lemma delete_removes_or_reports_witness :
  let st := mkState sample_store [lit "greeting"] [] (lit "text") ∅ [] in
  let st' := exec process_delete_command st in
  data st' = [(lit "smile", [0x1F600; 0xE9])] /\
  reads_back st'.
Proof.
  intros st st'.
  pose (H := proj2 (delete_removes_or_reports st (lit "greeting") []
                      sample_store_wf eq_refl greeting_not_empty)).
  assert (Hok : store_ok (data st')).
  { subst st'. rewrite (proj1 H).
    unfold store_ok, text_ok, valid_text, is_codepoint.
    repeat (apply Forall_cons_2 || apply Forall_nil_2 || split
            || (vm_compute; reflexivity)). }
  exact (conj (proj1 H)
           (proj1 (proj2 (proj2 (proj2 (proj2 (proj2 (proj2 H)))))) Hok)).
Defined.

(* ===================================================================== *)
(** * The list command *)
(* ===================================================================== *)

(** C8, as the claim states it, fails in two ways.  For a dict with one
    key whose value holds a newline the list command prints two lines.
    For a dict with one key whose value is the lone surrogate U+D800 (the
    value [json.load] gives for the text ["\ud800"]) it prints no line at
    all: [print] raises [UnicodeEncodeError]. *)
Lemma list_lines_counterexample :
  (let st := mkState two_line_store [] [] [] ∅ [] in
   length (Dict.keys (data st)) = 1%nat /\
   result process_list_command st = Ok tt /\
   lines (stdout (exec process_list_command st))
   = [lit "Key: k" ++ [9] ++ lit "Value: a"; lit "b"] /\
   length (lines (stdout (exec process_list_command st)))
   <> length (Dict.keys (data st))) /\
  (let st := mkState [(lit "k", [0xD800])] [] [] [] ∅ [] in
   length (Dict.keys (data st)) = 1%nat /\
   (forall c, c ∈ [0xD800] -> c <> NL) /\
   result process_list_command st = Raise UnicodeEncodeError /\
   lines (stdout (exec process_list_command st)) = [] /\
   length (lines (stdout (exec process_list_command st)))
   <> length (Dict.keys (data st))).
Proof.
  split; intros st; unfold result, exec; rewrite list_run.
  - split; [reflexivity|]. split; [reflexivity|]. split; [reflexivity|].
    intros H. discriminate H.
  - split; [reflexivity|]. split.
    { intros c Hc. apply list_elem_of_singleton in Hc. subst c.
      intros H. discriminate H. }
    split; [reflexivity|]. split; [reflexivity|].
    intros H. discriminate H.
Qed.

Lemma lines_from_line (l cur rest : text) :
  NL ∉ l ->
  lines_from cur (l ++ NL :: rest) = (rev cur ++ l) :: lines_from [] rest.
Proof.
  revert cur. induction l as [|c l IH]; intros cur Hl.
  - cbn [app lines_from]. rewrite N.eqb_refl. by rewrite app_nil_r.
  - apply not_elem_of_cons in Hl as [Hc Hl].
    cbn [app lines_from]. destruct (N.eqb_spec c NL) as [->|_]; [done|].
    rewrite IH by done. cbn [rev]. by rewrite <- app_assoc.
Qed.

Lemma lines_of_lines (ls : list text) :
  Forall (fun l => NL ∉ l) ls ->
  lines (flat_map (fun l => l ++ [NL]) ls) = ls.
Proof.
  unfold lines. induction 1 as [|l ls Hl _ IH]; [reflexivity|].
  cbn [flat_map]. rewrite <- app_assoc. cbn [app].
  rewrite lines_from_line by done. by rewrite IH.
Qed.

Lemma list_line_one_line (kv : text * text) :
  NL ∉ kv.1 -> NL ∉ kv.2 -> NL ∉ list_line kv.
Proof.
  intros Hk Hv. unfold list_line.
  rewrite !elem_of_app. intros [H|[H|[H|[H|H]]]]; try done.
  - vm_compute in H. repeat (apply elem_of_cons in H as [H|H]; [discriminate H|]).
    by apply elem_of_nil in H.
  - apply list_elem_of_singleton in H. discriminate H.
  - vm_compute in H. repeat (apply elem_of_cons in H as [H|H]; [discriminate H|]).
    by apply elem_of_nil in H.
Qed.

(** C8 (amended): for every dict in which no key and no value holds a
    newline or a surrogate (or a number that is no code point), the list
    command returns and prints exactly one line for each key, in the order
    of the dict, and the line of a key is [Key: ], the key, a tab,
    [Value: ] and the value of that key. *)
Theorem list_one_line_per_key (st : state) :
  Forall (fun kv => (NL ∉ kv.1) /\ (NL ∉ kv.2)) (data st) ->
  plain_store (data st) = true ->
  let st' := exec process_list_command st in
  result process_list_command st = Ok tt /\
  exists out,
    printed st st' out /\
    lines out
    = map (fun kv => lit "Key: " ++ kv.1 ++ [9] ++ lit "Value: " ++ kv.2)
        (data st) /\
    length (lines out) = length (Dict.keys (data st)).
Proof.
  intros Hd Hp. unfold result, exec. rewrite (list_run_plain _ Hp).
  split; [done|]. exists (list_output (data st)). split; [done|].
  change (fun kv : text * text =>
            lit "Key: " ++ kv.1 ++ [9] ++ lit "Value: " ++ kv.2)
    with list_line.
  assert (L : lines (list_output (data st)) = map list_line (data st)).
  { unfold list_output.
    replace (flat_map (fun kv => list_line kv ++ [NL]) (data st))
      with (flat_map (fun l => l ++ [NL]) (map list_line (data st))).
    - apply lines_of_lines. apply Forall_map.
      eapply Forall_impl; [exact Hd|]. intros kv [Hk Hv]. cbn.
      by apply list_line_one_line.
    - clear Hd Hp. induction (data st) as [|kv d IH]; [reflexivity|].
      cbn [map flat_map]. by rewrite IH. }
  split; [exact L|]. rewrite L. unfold Dict.keys. by rewrite !length_map.
Qed.

Lemma sample_no_newline :
  Forall (fun kv : text * text => (NL ∉ kv.1) /\ (NL ∉ kv.2))
    [(lit "a", lit "one"); (lit "b", [0x1F600; 0xE9])].
Proof.
  repeat (apply Forall_cons_2 || apply Forall_nil_2 || split);
    intros H; vm_compute in H;
    repeat (apply elem_of_cons in H as [H|H]; [discriminate H|]);
    by apply elem_of_nil in H.
Defined.

Lemma list_one_line_per_key_witness :
  let st := mkState [(lit "a", lit "one"); (lit "b", [0x1F600; 0xE9])]
              [] [] [] ∅ [] in
  result process_list_command st = Ok tt /\
  exists out,
    printed st (exec process_list_command st) out /\
    lines out
    = map (fun kv => lit "Key: " ++ kv.1 ++ [9] ++ lit "Value: " ++ kv.2)
        (data st) /\
    length (lines out) = length (Dict.keys (data st)).
Proof.
  intros st.
  exact (list_one_line_per_key st sample_no_newline eq_refl).
Defined.

(* ===================================================================== *)
(** * Which commands write the data file *)
(* ===================================================================== *)

(** C10, as the claim states it, fails: the save command writes the data
    file although the dict it ends with is the dict it started from. *)
Lemma save_same_text_counterexample :
  let st' := exec process_save_command same_text in
  data st' = data same_text /\
  writes same_text = [] /\
  writes st' = [(SAVED_DATA, saved (data same_text))] /\
  files same_text !! SAVED_DATA = None /\
  files st' !! SAVED_DATA = Some (saved (data same_text)).
Proof.
  assert (Hk : lit "k" <> []) by (intros E; discriminate E).
  assert (Hm : is_Some (Dict.get (lit "k") (data same_text))) by (by eexists).
  assert (Hy : lower (lit "y") = lit "y") by reflexivity.
  intros st'. subst st'. unfold exec.
  rewrite (save_run_overwrite same_text (lit "k") (lit "y") [] eq_refl Hk Hm Hy).
  cbn [snd data writes files].
  split; [reflexivity|]. split; [reflexivity|]. split; [reflexivity|].
  split; [apply lookup_empty | apply lookup_insert_eq].
Qed.

Lemma save_writes_on_assignment (st : state) :
  let st' := exec process_save_command st in
  untouched st st' \/
  exists key, data st' = Dict.set key (clipboard st) (data st) /\ persisted st st'.
Proof.
  unfold exec. destruct (stdin st) as [|key ins] eqn:Hin.
  { rewrite (save_run_eof _ Hin). left. by repeat split. }
  destruct (decide (key = [])) as [->|Hkey].
  { rewrite (save_run_empty_key _ _ Hin). left. by repeat split. }
  destruct (Dict.get key (data st)) as [v|] eqn:Hget.
  - assert (Hmem : is_Some (Dict.get key (data st))) by (by eexists).
    destruct ins as [|answer rest].
    { rewrite (save_run_eof_at_overwrite _ _ Hin Hkey Hmem). left. by repeat split. }
    destruct (decide (lower answer = lit "y")) as [Hy|Hn].
    + rewrite (save_run_overwrite _ _ _ _ Hin Hkey Hmem Hy).
      right. exists key. by repeat split.
    + rewrite (save_run_canceled _ _ _ _ Hin Hkey Hmem Hn). left. by repeat split.
  - rewrite (save_run_new_key _ _ _ Hin Hkey Hget).
    right. exists key. by repeat split.
Qed.

Lemma delete_writes_on_deletion (st : state) :
  let st' := exec process_delete_command st in
  untouched st st' \/
  exists key, is_Some (Dict.get key (data st)) /\
              data st' = Dict.del key (data st) /\
              data st' <> data st /\ persisted st st'.
Proof.
  unfold exec. destruct (stdin st) as [|key rest] eqn:Hin.
  { rewrite (delete_run_eof _ Hin). left. by repeat split. }
  destruct (decide (key = [])) as [->|Hkey].
  { rewrite (delete_run_empty_key _ _ Hin). left. by repeat split. }
  destruct (Dict.get key (data st)) as [v|] eqn:Hget.
  - assert (Hmem : is_Some (Dict.get key (data st))) by (by eexists).
    rewrite (delete_run_present _ _ _ Hin Hkey Hmem).
    right. exists key. cbn [snd data].
    split; [done|]. split; [done|]. split; [|by repeat split].
    intros E. pose proof (length_del key (data st) Hmem) as L.
    rewrite E in L. lia.
  - rewrite (delete_run_absent _ _ _ Hin Hkey Hget). left. by repeat split.
Qed.

Lemma load_untouched (st : state) : untouched st (exec process_load_command st).
Proof.
  unfold exec. destruct (stdin st) as [|key rest] eqn:Hin.
  { rewrite (load_run_eof _ Hin). by repeat split. }
  destruct (decide (key = [])) as [->|Hkey].
  { rewrite (load_run_empty_key _ _ Hin). by repeat split. }
  destruct (Dict.get key (data st)) as [v|] eqn:Hget.
  - rewrite (load_run_present _ _ _ _ Hin Hkey Hget). by repeat split.
  - rewrite (load_run_absent _ _ _ Hin Hkey Hget). by repeat split.
Qed.

Lemma list_untouched (st : state) : untouched st (exec process_list_command st).
Proof. unfold exec. rewrite list_run. by repeat split. Qed.

(** C10 (amended): the load and the list command never change the dict and
    never write a file.  The save and the delete command write the data
    file exactly when they assign to, respectively delete from, the dict:
    either dict and files are as they were, or [data[key]] has been
    assigned (respectively deleted) and the data file has been written
    once, with the dict that resulted.  A delete that writes has changed
    the dict; a save that writes has assigned the clipboard text, which may
    be the text that was there already. *)
Theorem commands_write_on_mutation (st : state) :
  untouched st (exec process_list_command st) /\
  untouched st (exec process_load_command st) /\
  (let st' := exec process_save_command st in
   (untouched st st' \/
    exists key, data st' = Dict.set key (clipboard st) (data st) /\
                persisted st st') /\
   (data st' <> data st -> persisted st st')) /\
  (let st' := exec process_delete_command st in
   (untouched st st' \/
    exists key, is_Some (Dict.get key (data st)) /\
                data st' = Dict.del key (data st) /\
                data st' <> data st /\ persisted st st') /\
   (data st' <> data st <-> persisted st st')).
Proof.
  split; [apply list_untouched|]. split; [apply load_untouched|]. split.
  - pose proof (save_writes_on_assignment st) as H. cbv zeta in *.
    split; [exact H|]. intros Hne.
    destruct H as [(Hd & _)|(key & _ & Hp)]; [done | exact Hp].
  - pose proof (delete_writes_on_deletion st) as H. cbv zeta in *.
    split; [exact H|]. split.
    + intros Hne. destruct H as [(Hd & _)|(key & _ & _ & _ & Hp)]; [done | exact Hp].
    + intros (_ & Hw). destruct H as [(_ & _ & Hu)|(key & _ & _ & Hne & _)]; [|done].
      rewrite Hu in Hw. exfalso.
      apply (f_equal length) in Hw. rewrite length_app in Hw. cbn in Hw. lia.
Qed.

(* ===================================================================== *)
(** * Properties of [main] and of runs that follow one another *)
(* ===================================================================== *)

Module ProgramFacts.

Import Program.

Lemma as_store_of_store (d : store) : as_store (of_store d) = Some d.
Proof.
  unfold as_store, of_store. induction d as [|[k v] d IH]; [reflexivity|].
  cbn [map mapM fst snd]. cbn. cbn in IH. by rewrite IH.
Qed.


Lemma stored_written (d : store) (st : state) :
  Dict.wf d -> store_ok d ->
  files st !! SAVED_DATA = Some (saved d) -> stored d st.
Proof. intros Hwf Hok Hf. split; [done|]. split; [done|]. by left. Qed.

(** The start of [main]: a stored data file is loaded as its dict, with
    nothing printed. *)
Lemma load_stored (d : store) (st : state) :
  stored d st -> load_data SAVED_DATA st = (Ok (of_store d), st).
Proof.
  intros (Hwf & Hok & [Hf | [-> Hf]]).
  - apply (load_data_valid _ (saved d) (dumps d)); [done | |].
    + apply read_text_saved.
    + by apply loads_dumps.
  - by apply load_data_missing.
Qed.

Lemma main_run (argv : list text) (c : command) (d : store) (st : state) :
  parse_args argv = Some (Parsed c) -> stored d st ->
  main argv st = Some (finish (dispatch c (with_data d st))).
Proof.
  intros Hp Hs. unfold main. rewrite Hp, (load_stored _ _ Hs).
  by rewrite as_store_of_store.
Qed.

Lemma store_ok_set (k v : text) (d : store) :
  text_ok k -> text_ok v -> store_ok d -> store_ok (Dict.set k v d).
Proof.
  intros Hk Hv. unfold store_ok.
  induction d as [|[k0 v0] d IH]; intros Hd; cbn [Dict.set].
  - apply Forall_cons_2; [by split | apply Forall_nil_2].
  - apply Forall_cons in Hd as [[Hk0 Hv0] Hd].
    destruct (decide (k = k0)).
    + apply Forall_cons_2; [by split | done].
    + apply Forall_cons_2; [by split | by apply IH].
Qed.

Lemma store_ok_del (k : text) (d : store) :
  store_ok d -> store_ok (Dict.del k d).
Proof.
  unfold store_ok. induction d as [|[k0 v0] d IH]; intros Hd; cbn [Dict.del]; [done|].
  apply Forall_cons in Hd as [Hkv Hd].
  destruct (decide (k = k0)); [done|].
  apply Forall_cons_2; [done | by apply IH].
Qed.

Lemma store_ok_get (k v : text) (d : store) :
  store_ok d -> Dict.get k d = Some v -> text_ok v.
Proof.
  unfold store_ok. induction d as [|[k0 v0] d IH]; intros Hd; cbn [Dict.get]; [done|].
  apply Forall_cons in Hd as [[_ Hv0] Hd].
  destruct (decide (k = k0)); [by intros [= <-] | by apply IH].
Qed.




Lemma del_set_fresh (k v : text) (d : store) :
  Dict.get k d = None -> Dict.del k (Dict.set k v d) = d.
Proof.
  induction d as [|[k0 v0] d IH]; cbn [Dict.get Dict.set Dict.del].
  - intros _. by destruct (decide (k = k)).
  - destruct (decide (k = k0)) as [|Hne]; [discriminate|].
    intros Hg. cbn [Dict.del]. destruct (decide (k = k0)); [done|].
    by rewrite IH.
Qed.

End ProgramFacts.

Import Program ProgramFacts.

(* ===================================================================== *)
(** * Further properties of the persistence routines *)
(* ===================================================================== *)

(** X1: whenever [save_data] returns, the file at its path holds bytes
    that are all printable ASCII (no newline, nothing outside ASCII,
    whatever code points the strings of the dict hold); the bytes read
    back as the JSON text of the dict, and when no string of the dict
    holds a high surrogate right before a low one, [load_data] of that
    path returns the dict. *)
Theorem save_data_writes_ascii (filepath : text) (d : store) (st st' : state) :
  save_data filepath d st = (Ok tt, st') ->
  exists bs,
    files st' !! filepath = Some bs /\
    Forall (fun b => 0x20 <= Byte.to_N b <= 0x7E) bs /\
    Codec.read_text bs = Some (dumps d) /\
    (Dict.wf d -> store_ok d ->
     load_data filepath st' = (Ok (of_store d), st')).
Proof.
  rewrite save_data_run. intros [= <-]. exists (saved d).
  assert (F : files (with_file filepath (saved d) st) !! filepath
              = Some (saved d))
    by (cbn [files with_file]; apply lookup_insert_eq).
  split; [exact F|]. split.
  { unfold saved, ascii_bytes. apply Forall_map.
    eapply Forall_impl; [apply dumps_printable|].
    intros c Hc. cbn. unfold printable in Hc. rewrite to_N_byte_of; lia. }
  split; [apply read_text_saved|].
  intros Hwf Hok.
  apply (load_data_valid _ (saved d) (dumps d)); [exact F | |].
  - apply read_text_saved.
  - by apply loads_dumps.
Qed.

Lemma save_data_writes_ascii_witness :
  exists bs,
    files (with_file SAVED_DATA (saved sample_store) blank) !! SAVED_DATA
    = Some bs /\
    Forall (fun b => 0x20 <= Byte.to_N b <= 0x7E) bs /\
    Codec.read_text bs = Some (dumps sample_store).
Proof.
  destruct (save_data_writes_ascii SAVED_DATA sample_store blank
              (with_file SAVED_DATA (saved sample_store) blank)
              (save_data_run SAVED_DATA sample_store blank))
    as (bs & H1 & H2 & H3 & _).
  exists bs. split; [exact H1|]. split; [exact H2 | exact H3].
Defined.

(** X2: the last save wins.  When two dicts are saved one after the other
    to the same path and both saves return, [load_data] of that path
    returns the second dict, whatever the first was (the file is
    overwritten, not appended to); the second dict is one without
    surrogate pairs. *)
Theorem last_save_wins (p : text) (d1 d2 : store) (st st1 st2 : state) :
  Dict.wf d2 -> store_ok d2 ->
  save_data p d1 st = (Ok tt, st1) ->
  save_data p d2 st1 = (Ok tt, st2) ->
  load_data p st2 = (Ok (of_store d2), st2).
Proof.
  intros Hwf Hok. rewrite !save_data_run. intros [= <-] [= <-].
  apply (load_data_valid _ (saved d2) (dumps d2)).
  - cbn [files with_file]. apply lookup_insert_eq.
  - apply read_text_saved.
  - by apply loads_dumps.
Qed.

Lemma last_save_wins_witness :
  let st1 := with_file SAVED_DATA (saved sample_store) blank in
  let st2 := with_file SAVED_DATA (saved []) st1 in
  load_data SAVED_DATA st2 = (Ok (of_store []), st2).
Proof.
  intros st1 st2.
  assert (W : Dict.wf (@nil (text * text))) by apply NoDup_nil_2.
  assert (O : store_ok []) by apply Forall_nil_2.
  exact (last_save_wins SAVED_DATA sample_store [] blank st1 st2 W O
           (save_data_run SAVED_DATA sample_store blank)
           (save_data_run SAVED_DATA [] st1)).
Defined.

(** X3: [load_data] only reads: whatever the file system holds, the dict,
    the pending input, the clipboard and every file are as they were and
    nothing has been written; on the console there is nothing new, or the
    one message [Error: Invalid data format in the file.]. *)
Theorem load_data_read_only (filepath : text) (st : state) :
  let st' := exec (load_data filepath) st in
  data st' = data st /\ stdin st' = stdin st /\ clipboard st' = clipboard st /\
  untouched st st' /\
  (stdout st' = stdout st \/ printed st st' (INVALID_MSG ++ [NL])).
Proof.
  unfold exec. destruct (files st !! filepath) as [bs|] eqn:Hf.
  2:{ rewrite (load_data_missing _ _ Hf). repeat split. by left. }
  destruct (Codec.read_text bs) as [t|] eqn:Hr.
  2:{ rewrite (load_data_undecodable _ _ _ Hf Hr). repeat split. by left. }
  destruct (loads t) as [v|] eqn:Hl.
  - rewrite (load_data_valid _ _ _ _ _ Hf Hr Hl). repeat split. by left.
  - rewrite (load_data_invalid _ _ _ _ Hf Hr Hl). repeat split. by right.
Qed.

(** X4: when the bytes of the file are text that stays within the limits
    of the interpreter (at most 200 opening brackets and braces, at most
    4300 digits), [load_data] returns and does not raise: the value the
    text stands for when the text is JSON, and otherwise the empty dict,
    after the message [Error: Invalid data format in the file.]. *)
Theorem load_data_returns_on_text (filepath : text) (bs : Codec.bytes)
    (t : text) (st : state) :
  files st !! filepath = Some bs -> Codec.read_text bs = Some t ->
  within_limits t ->
  load_data filepath st =
  match loads t with
  | Some v => (Ok v, st)
  | None => (Ok (JObj []), with_stdout (stdout st ++ INVALID_MSG ++ [NL]) st)
  end.
Proof.
  intros Hf Hr _. destruct (loads t) as [v|] eqn:Hl.
  - by apply (load_data_valid _ bs t).
  - by apply (load_data_invalid _ bs t).
Qed.

Lemma oops_within_limits : within_limits (lit "{oops").
Proof. split; vm_compute; lia. Defined.

Lemma load_data_returns_on_text_witness :
  load_data SAVED_DATA
    (mkState [] [] [] [] {[ SAVED_DATA := ascii_bytes (lit "{oops") ]} [])
  = (Ok (JObj []),
     mkState [] [] (INVALID_MSG ++ [NL]) []
       {[ SAVED_DATA := ascii_bytes (lit "{oops") ]} []).
Proof.
  exact (load_data_returns_on_text SAVED_DATA (ascii_bytes (lit "{oops"))
           (lit "{oops")
           (mkState [] [] [] [] {[ SAVED_DATA := ascii_bytes (lit "{oops") ]} [])
           (lookup_singleton_eq _ _) eq_refl oops_within_limits).
Defined.

(** X5: a data file that starts with the UTF-8 byte order mark (EF BB BF)
    and goes on with text is treated as invalid data, also when the text
    after the mark is JSON: [load_data] prints the message and returns the
    empty dict. *)
Theorem load_data_rejects_bom (filepath : text) (bs : Codec.bytes) (t : text)
    (st : state) :
  files st !! filepath = Some (Byte.xef :: Byte.xbb :: Byte.xbf :: bs) ->
  Codec.utf8_decode bs = Some t ->
  load_data filepath st =
  (Ok (JObj []), with_stdout (stdout st ++ INVALID_MSG ++ [NL]) st).
Proof.
  intros Hf Hd.
  apply (load_data_invalid _ _ (0xFEFF :: Codec.universal_newlines t) _ Hf).
  - unfold Codec.read_text.
    change (Codec.utf8_decode (Byte.xef :: Byte.xbb :: Byte.xbf :: bs))
      with (cons 0xFEFF <$> Codec.utf8_decode bs).
    rewrite Hd. reflexivity.
  - reflexivity.
Qed.

Lemma load_data_rejects_bom_witness :
  load_data SAVED_DATA
    (mkState [] [] [] []
       {[ SAVED_DATA := Byte.xef :: Byte.xbb :: Byte.xbf :: saved sample_store ]} [])
  = (Ok (JObj []),
     mkState [] [] (INVALID_MSG ++ [NL]) []
       {[ SAVED_DATA := Byte.xef :: Byte.xbb :: Byte.xbf :: saved sample_store ]} []).
Proof.
  exact (load_data_rejects_bom SAVED_DATA (saved sample_store) (dumps sample_store)
           (mkState [] [] [] []
              {[ SAVED_DATA := Byte.xef :: Byte.xbb :: Byte.xbf :: saved sample_store ]} [])
           (lookup_singleton_eq _ _) eq_refl).
Defined.

(* ===================================================================== *)
(** * Further properties of the command handlers *)
(* ===================================================================== *)

(** X6: the load and the delete command, given an empty key, print
    [Error: Key cannot be empty.] and return; the dict, the files and the
    clipboard are as they were. *)
Theorem load_delete_empty_key_abort (st : state) (rest : list text) :
  stdin st = [] :: rest ->
  (let st' := exec process_load_command st in
   result process_load_command st = Ok tt /\
   untouched st st' /\ clipboard st' = clipboard st /\
   printed st st' (KEY_PROMPT ++ EMPTY_KEY_MSG ++ [NL])) /\
  (let st' := exec process_delete_command st in
   result process_delete_command st = Ok tt /\
   untouched st st' /\ clipboard st' = clipboard st /\
   printed st st' (KEY_PROMPT ++ EMPTY_KEY_MSG ++ [NL])).
Proof.
  intros Hin. unfold result, exec.
  rewrite (load_run_empty_key _ _ Hin), (delete_run_empty_key _ _ Hin).
  by repeat split.
Qed.

Lemma load_delete_empty_key_abort_witness :
  let st := mkState sample_store [[]; lit "greeting"] [] (lit "text") ∅ [] in
  untouched st (exec process_load_command st) /\
  untouched st (exec process_delete_command st).
Proof.
  intros st.
  pose (H := load_delete_empty_key_abort st [lit "greeting"] eq_refl).
  exact (conj (proj1 (proj2 (proj1 H))) (proj1 (proj2 (proj2 H)))).
Defined.





(* ===================================================================== *)
(** * Runs of the program *)
(* ===================================================================== *)

Lemma parse_save : parse_args [lit "save"] = Some (Parsed Save).
Proof. reflexivity. Qed.
Lemma parse_load : parse_args [lit "load"] = Some (Parsed Load).
Proof. reflexivity. Qed.
Lemma parse_delete : parse_args [lit "delete"] = Some (Parsed Delete).
Proof. reflexivity. Qed.

(** What a run of [main] with [save] does from a stored data file when
    the save command goes on. *)
Lemma main_save_run (st : state) (d : store) (key : text) (ins rest : list text) :
  stored d st -> stdin st = key :: ins -> key <> [] ->
  save_goes_on d key ins rest ->
  exists out,
    main [lit "save"] st =
    Some (Returned,
          mkState (Dict.set key (clipboard st) d) rest out (clipboard st)
            (<[SAVED_DATA := saved (Dict.set key (clipboard st) d)]> (files st))
            (writes st ++ [(SAVED_DATA, saved (Dict.set key (clipboard st) d))])).
Proof.
  intros Hs Hin Hkey Hgo. rewrite (main_run _ _ _ _ parse_save Hs).
  cbn [dispatch].
  destruct Hgo as [[Hnone ->] | [Hmem (answer & -> & Hy)]].
  - rewrite (save_run_new_key (with_data d st) key rest Hin Hkey Hnone).
    eexists. reflexivity.
  - rewrite (save_run_overwrite (with_data d st) key answer rest Hin Hkey Hmem Hy).
    eexists. reflexivity.
Qed.

(** X9: a text saved in one run comes back in a later run.  From a data
    file the program has left, a run of [save] that goes on with a key
    stores the clipboard text; any later run of [load] that finds the
    files as that run left them and is given the same key puts that text
    on the clipboard, whatever the clipboard holds by then, and leaves the
    files as they are. *)
Theorem saved_text_comes_back (st st2 : state) (d : store) (key : text)
    (ins rest rest2 : list text) :
  stored d st -> stdin st = key :: ins -> key <> [] ->
  save_goes_on d key ins rest ->
  text_ok key -> text_ok (clipboard st) ->
  exists st1,
    main [lit "save"] st = Some (Returned, st1) /\
    stored (Dict.set key (clipboard st) d) st1 /\
    (files st2 = files st1 -> stdin st2 = key :: rest2 ->
     exists st3,
       main [lit "load"] st2 = Some (Returned, st3) /\
       clipboard st3 = clipboard st /\
       files st3 = files st1).
Proof.
  intros Hs Hin Hkey Hgo Hk Hc.
  destruct (main_save_run _ _ _ _ _ Hs Hin Hkey Hgo) as [out Hm].
  pose proof Hs as (Hwf & Hok & _).
  eexists. split; [exact Hm|].
  assert (Hs1 : forall st', files st' =
                  <[SAVED_DATA := saved (Dict.set key (clipboard st) d)]> (files st) ->
                stored (Dict.set key (clipboard st) d) st').
  { intros st' Hf. apply stored_written.
    - by apply wf_set.
    - by apply store_ok_set.
    - rewrite Hf. apply lookup_insert_eq. }
  split; [by apply Hs1|].
  cbn [files]. intros Hf2 Hin2.
  rewrite (main_run _ _ _ _ parse_load (Hs1 _ Hf2)). cbn [dispatch].
  assert (Hg : Dict.get key (data (with_data (Dict.set key (clipboard st) d) st2))
               = Some (clipboard st)).
  { cbn [data with_data]. rewrite get_set. by destruct (decide (key = key)). }
  rewrite (load_run_present (with_data (Dict.set key (clipboard st) d) st2)
             key (clipboard st) rest2 Hin2 Hkey Hg).
  eexists. split; [reflexivity|]. by split.
Qed.

Lemma sample_stored :
  stored sample_store
    (mkState [] [lit "note"] [] (lit "text") {[ SAVED_DATA := saved sample_store ]} []).
Proof.
  apply stored_written; [exact sample_store_wf | exact sample_store_ok |].
  apply lookup_singleton_eq.
Defined.

Lemma note_ok : text_ok (lit "note") /\ text_ok (lit "text") /\ lit "note" <> [].
Proof.
  unfold text_ok, valid_text, is_codepoint.
  repeat (apply Forall_cons_2 || apply Forall_nil_2 || split
          || (vm_compute; reflexivity)).
  intros E. discriminate E.
Defined.

Lemma note_is_new : save_goes_on sample_store (lit "note") [] [].
Proof. left. split; reflexivity. Defined.

Lemma saved_text_comes_back_witness :
  exists st1,
    main [lit "save"]
      (mkState [] [lit "note"] [] (lit "text")
         {[ SAVED_DATA := saved sample_store ]} [])
    = Some (Returned, st1) /\
    stored (Dict.set (lit "note") (lit "text") sample_store) st1.
Proof.
  destruct (saved_text_comes_back
              (mkState [] [lit "note"] [] (lit "text")
                 {[ SAVED_DATA := saved sample_store ]} [])
              blank sample_store (lit "note") [] [] []
              sample_stored eq_refl (proj2 (proj2 note_ok)) note_is_new
              (proj1 note_ok) (proj1 (proj2 note_ok)))
    as (st1 & H1 & H2 & _).
  exists st1. split; [exact H1 | exact H2].
Defined.

(** X10: deleting a key that a run of [save] has added restores the data
    file.  From a data file the program has left for the dict [d], a run
    of [save] with a new key and then a run of [delete] with that key
    leave the data file with the bytes [save_data] writes for [d], when
    the key and the clipboard text are made of code points and hold no
    high surrogate right before a low one. *)
Theorem save_then_delete_restores (st st2 : state) (d : store) (key : text)
    (rest rest2 : list text) :
  stored d st -> stdin st = key :: rest -> key <> [] ->
  Dict.get key d = None ->
  text_ok key -> text_ok (clipboard st) ->
  exists st1,
    main [lit "save"] st = Some (Returned, st1) /\
    (files st2 = files st1 -> stdin st2 = key :: rest2 ->
     exists st3,
       main [lit "delete"] st2 = Some (Returned, st3) /\
       files st3 !! SAVED_DATA = Some (saved d) /\
       stored d st3).
Proof.
  intros Hs Hin Hkey Hnone Hk Hc.
  assert (Hgo : save_goes_on d key rest rest) by (by left).
  destruct (main_save_run _ _ _ _ _ Hs Hin Hkey Hgo) as [out Hm].
  pose proof Hs as (Hwf & Hok & _).
  eexists. split; [exact Hm|].
  cbn [files]. intros Hf2 Hin2.
  assert (Hs2 : stored (Dict.set key (clipboard st) d) st2).
  { apply stored_written.
    - by apply wf_set.
    - by apply store_ok_set.
    - rewrite Hf2. apply lookup_insert_eq. }
  rewrite (main_run _ _ _ _ parse_delete Hs2). cbn [dispatch].
  assert (Hm2 : is_Some (Dict.get key
                  (data (with_data (Dict.set key (clipboard st) d) st2)))).
  { cbn [data with_data]. rewrite get_set.
    destruct (decide (key = key)); [by eexists | done]. }
  rewrite (delete_run_present (with_data (Dict.set key (clipboard st) d) st2)
             key rest2 Hin2 Hkey Hm2).
  cbn [data with_data]. rewrite del_set_fresh by done.
  eexists. split; [reflexivity|].
  assert (F : forall m : gmap text Codec.bytes,
            <[SAVED_DATA := saved d]> m !! SAVED_DATA = Some (saved d))
    by (intros m; apply lookup_insert_eq).
  split; [apply F|]. apply stored_written; [done | done | apply F].
Qed.

Lemma save_then_delete_restores_witness :
  exists st1,
    main [lit "save"]
      (mkState [] [lit "note"] [] (lit "text")
         {[ SAVED_DATA := saved sample_store ]} [])
    = Some (Returned, st1).
Proof.
  destruct (save_then_delete_restores
              (mkState [] [lit "note"] [] (lit "text")
                 {[ SAVED_DATA := saved sample_store ]} [])
              blank sample_store (lit "note") [] []
              sample_stored eq_refl (proj2 (proj2 note_ok)) eq_refl
              (proj1 note_ok) (proj1 (proj2 note_ok)))
    as (st1 & H1 & _).
  exists st1. exact H1.
Defined.





(** ** The data file stays readable from run to run *)











(** ** Runs that only read *)

Lemma load_data_keeps_files (filepath : text) (st : state) :
  files (load_data filepath st).2 = files st /\
  writes (load_data filepath st).2 = writes st.
Proof.
  destruct (files st !! filepath) as [bs|] eqn:Hf.
  2:{ by rewrite (load_data_missing _ _ Hf). }
  destruct (Codec.read_text bs) as [t|] eqn:Hr.
  2:{ by rewrite (load_data_undecodable _ _ _ Hf Hr). }
  destruct (loads t) as [v|] eqn:Hl.
  - by rewrite (load_data_valid _ _ _ _ _ Hf Hr Hl).
  - by rewrite (load_data_invalid _ _ _ _ Hf Hr Hl).
Qed.

Lemma finish_state (r : outcome unit * state) : (finish r).2 = r.2.
Proof. by destruct r as [[?|?] ?]. Qed.


(** X15: a run of [main] with [list] or with [load] writes nothing,
    whatever is typed: for a data file that is missing, that is no text,
    that is not JSON, or that is a JSON object whose values are all
    strings, the run ends, and when it ends every file is as it was (a
    data file that was missing is still missing) and no write has been
    made. *)
Theorem reading_runs_write_nothing (argv : list text) (c : command)
    (st : state) :
  parse_args argv = Some (Parsed c) -> c = List \/ c = Load ->
  holds_store st ->
  exists e st',
    main argv st = Some (e, st') /\
    files st' = files st /\ writes st' = writes st.
Proof.
  intros Hp Hc Hh. unfold main. rewrite Hp.
  destruct (load_data_keeps_files SAVED_DATA st) as [Hf Hw].
  destruct (load_data SAVED_DATA st) as [[v|x] st1] eqn:Hl; cbn [snd] in Hf, Hw.
  2:{ eexists _, _. split; [reflexivity|]. by split. }
  destruct (Hh v st1 Hl) as [d Hd]. rewrite Hd.
  destruct (finish (dispatch c (with_data d st1))) as [e st'] eqn:Hfin.
  exists e, st'. split; [reflexivity|].
  assert (E : st' = (finish (dispatch c (with_data d st1))).2)
    by (by rewrite Hfin).
  rewrite finish_state in E. subst st'.
  destruct Hc as [-> | ->]; cbn [dispatch].
  - destruct (list_untouched (with_data d st1)) as (_ & Hf' & Hw').
    unfold exec in Hf', Hw'. rewrite Hf', Hw'. by split.
  - destruct (load_untouched (with_data d st1)) as (_ & Hf' & Hw').
    unfold exec in Hf', Hw'. rewrite Hf', Hw'. by split.
Qed.

Lemma missing_file_holds_store :
  holds_store (mkState [] [lit "smile"] [] [] ∅ []).
Proof.
  intros v st1. rewrite (load_data_missing SAVED_DATA _ (lookup_empty _)).
  intros [= <- _]. by eexists.
Defined.

Lemma reading_runs_write_nothing_witness :
  let st := mkState [] [lit "smile"] [] [] ∅ [] in
  exists e st',
    main [lit "load"] st = Some (e, st') /\
    files st' = files st /\ writes st' = writes st.
Proof.
  intros st.
  exact (reading_runs_write_nothing [lit "load"] Load st eq_refl
           (or_intror eq_refl) missing_file_holds_store).
Defined.
